(** * Birthday Number Ones: the chart-data retrieval layer

    A shallow embedding of [services/Scraper.js] (and of the JavaScript
    built-ins it calls), followed by the properties the specification
    states about it.

    Conventions of the embedding.
    - JavaScript strings are [string]; a character is a code unit below 256.
      Case mapping is modelled on the 26 ASCII letters, other code units are
      left as they are.
    - JavaScript numbers are restricted to the integers and [NaN]: every
      number the module computes with is a year, a month, a day or an index.
    - A JavaScript exception (and a rejected promise) is the [Throw]
      completion; an [async] function is a function of the world that
      returns a completion and the new world.
    - The world holds the in-memory snapshot [numberOnesData], the file
      [./data/number-ones.json] and the log of the HTTP requests issued.
    - The network is an oracle: the answer to a request may depend on the
      URL and on the number of requests issued before it. *)

From Stdlib Require Import ZArith Ascii String List Lia.
From stdpp Require Import base tactics option list gmap strings pretty.

(** ** JavaScript values and completions *)

Inductive number : Type :=
  | NaN
  | Int (z : Z).

Inductive value : Type :=
  | VUndefined
  | VNull
  | VNum (n : number)
  | VStr (s : string).

Inductive JSError : Type :=
  | TypeError
  | RequestError.

Inductive Completion (A : Type) : Type :=
  | Normal (a : A)
  | Throw (e : JSError).
Arguments Normal {A} a.
Arguments Throw {A} e.

Definition cbind {A B} (c : Completion A) (k : A → Completion B) : Completion B :=
  match c with
  | Normal a => k a
  | Throw e => Throw e
  end.

Notation "'try!' x := c 'in' k" := (cbind c (fun x => k))
  (at level 10, x name, c at level 100, k at level 200).

(** ** Built-ins: strings *)

Module JS.

(** [Number::toString] on integers, and ["NaN"]. *)
Definition NumberToString (n : number) : string :=
  match n with
  | NaN => "NaN"
  | Int z => pretty z
  end.

(** [ToString], as a template literal applies it to a substitution. *)
Definition ToString (v : value) : string :=
  match v with
  | VUndefined => "undefined"
  | VNull => "null"
  | VNum n => NumberToString n
  | VStr s => s
  end.

(** [String.prototype.split] with a one-character separator: the result
    always has at least one element. *)
Fixpoint split (sep : ascii) (s : string) : list string :=
  match s with
  | EmptyString => [EmptyString]
  | String c r =>
      if Ascii.eqb c sep then EmptyString :: split sep r
      else match split sep r with
           | w :: ws => String c w :: ws
           | [] => [String c EmptyString]
           end
  end.

(** [Array.prototype.join]. *)
Fixpoint join (sep : string) (l : list string) : string :=
  match l with
  | [] => EmptyString
  | [x] => x
  | x :: xs => x +:+ sep +:+ join sep xs
  end.

(** White space and line terminators among the code units below 256. *)
Definition is_space (c : ascii) : bool :=
  let n := nat_of_ascii c in
  (n =? 32)%nat || ((9 <=? n)%nat && (n <=? 13)%nat) || (n =? 160)%nat.

Fixpoint trimStart (s : string) : string :=
  match s with
  | EmptyString => EmptyString
  | String c r => if is_space c then trimStart r else s
  end.

Fixpoint trimEnd (s : string) : string :=
  match s with
  | EmptyString => EmptyString
  | String c r =>
      match trimEnd r with
      | EmptyString => if is_space c then EmptyString else String c EmptyString
      | r' => String c r'
      end
  end.

(** [String.prototype.trim]. *)
Definition trim (s : string) : string := trimEnd (trimStart s).

(** [s.slice(a, b)] for [0 <= a <= b]. *)
Definition slice (a b : nat) (s : string) : string :=
  String.substring a (b - a) s.

(** [s.slice(-k)]: the last [k] code units (all of [s] when it is shorter). *)
Definition slice_last (k : nat) (s : string) : string :=
  String.substring (String.length s - k) k s.

(** [s.substring(1)]. *)
Definition substring1 (s : string) : string :=
  match s with
  | EmptyString => EmptyString
  | String _ r => r
  end.

Definition upper_char (c : ascii) : ascii :=
  let n := nat_of_ascii c in
  if (97 <=? n)%nat && (n <=? 122)%nat then ascii_of_nat (n - 32) else c.

Definition lower_char (c : ascii) : ascii :=
  let n := nat_of_ascii c in
  if (65 <=? n)%nat && (n <=? 90)%nat then ascii_of_nat (n + 32) else c.

Fixpoint map_string (f : ascii → ascii) (s : string) : string :=
  match s with
  | EmptyString => EmptyString
  | String c r => String (f c) (map_string f r)
  end.

Definition toUpperCase : string → string := map_string upper_char.
Definition toLowerCase : string → string := map_string lower_char.

(** [a[i]] on an array of strings: [undefined] out of range. *)
Definition item (a : list string) (i : nat) : value :=
  match a !! i with
  | Some s => VStr s
  | None => VUndefined
  end.

(** [Array.prototype.indexOf] on an array of strings (strict equality, so
    only a string can be found); [-1] when absent. *)
Fixpoint indexOf_from (i : Z) (a : list string) (x : string) : Z :=
  match a with
  | [] => (-1)%Z
  | y :: r => if String.eqb y x then i else indexOf_from (i + 1)%Z r x
  end.

Definition indexOf (a : list string) (v : value) : Z :=
  match v with
  | VStr x => indexOf_from 0%Z a x
  | _ => (-1)%Z
  end.

(** Decimal digits. *)
Definition digit_of (c : ascii) : option Z :=
  let n := nat_of_ascii c in
  if (48 <=? n)%nat && (n <=? 57)%nat then Some (Z.of_nat (n - 48)) else None.

(** The longest prefix of decimal digits, read as a number, with what is
    left of the string; [None] when the string starts with no digit. *)
Fixpoint digits_prefix (acc : option Z) (s : string) : option Z * string :=
  match s with
  | EmptyString => (acc, EmptyString)
  | String c r =>
      match digit_of c with
      | Some d => digits_prefix (Some (10 * default 0%Z acc + d)%Z) r
      | None => (acc, s)
      end
  end.

Definition signed_digits (s : string) : option Z * string :=
  match s with
  | String "-" r =>
      let '(n, rest) := digits_prefix None r in (Z.opp <$> n, rest)
  | String "+" r => digits_prefix None r
  | _ => digits_prefix None s
  end.

(** [parseInt(v, 10)]: leading white space, an optional sign, then the
    longest run of digits; [NaN] when there is none. *)
Definition parseInt (v : value) : number :=
  match fst (signed_digits (trimStart (ToString v))) with
  | Some z => Int z
  | None => NaN
  end.

(** [ToNumber] on a string, for the literals that denote an integer:
    white space is trimmed, the empty string is [0], an optionally signed
    run of digits is its value.  Every other string is [NaN] here; the
    fractional, exponent, hexadecimal and [Infinity] literals are outside
    the model. *)
Definition StringToNumber (s : string) : number :=
  match trim s with
  | EmptyString => Int 0
  | t =>
      match signed_digits t with
      | (Some z, EmptyString) => Int z
      | _ => NaN
      end
  end.

End JS.

(** ** Built-ins: [Date]

    A [Date] object holds a time value: a number of milliseconds, or [NaN]
    for an invalid date.  The definitions follow ECMA-262 (Day Number and
    Time within Day, Year Number, Month Number, Date Number, MakeDay,
    MakeDate).  Time values are read in local time, and the offset of local
    time from UTC is taken to be constant. *)

Module Date.
Local Open Scope Z_scope.

Definition msPerDay : Z := 86400000.

Definition Day (t : Z) : Z := t / msPerDay.
Definition TimeWithinDay (t : Z) : Z := t mod msPerDay.

Definition DaysInYear (y : Z) : Z :=
  if negb (y mod 4 =? 0) then 365
  else if negb (y mod 100 =? 0) then 366
  else if negb (y mod 400 =? 0) then 365
  else 366.

Definition DayFromYear (y : Z) : Z :=
  365 * (y - 1970) + (y - 1969) / 4 - (y - 1901) / 100 + (y - 1601) / 400.

(** The year of a day number: the largest [y] with [DayFromYear y <= n].
    The mean length of a year gives an estimate that is off by at most one
    ([YearFromDay_spec] below). *)
Definition YearFromDay (n : Z) : Z :=
  let y0 := 1970 + (n * 400) / 146097 in
  if n <? DayFromYear y0 then y0 - 1
  else if DayFromYear (y0 + 1) <=? n then y0 + 1
  else y0.

Definition YearFromTime (t : Z) : Z := YearFromDay (Day t).

Definition InLeapYear (y : Z) : Z := if DaysInYear y =? 366 then 1 else 0.

Definition DayWithinYear (t : Z) : Z := Day t - DayFromYear (YearFromTime t).

(** The day within the year on which month [m] (0 = January) starts. *)
Definition MonthStart (m leap : Z) : Z :=
  if m =? 0 then 0
  else if m =? 1 then 31
  else if m =? 2 then 59 + leap
  else if m =? 3 then 90 + leap
  else if m =? 4 then 120 + leap
  else if m =? 5 then 151 + leap
  else if m =? 6 then 181 + leap
  else if m =? 7 then 212 + leap
  else if m =? 8 then 243 + leap
  else if m =? 9 then 273 + leap
  else if m =? 10 then 304 + leap
  else 334 + leap.

Definition MonthFromTime (t : Z) : Z :=
  let d := DayWithinYear t in
  let leap := InLeapYear (YearFromTime t) in
  if d <? 31 then 0
  else if d <? 59 + leap then 1
  else if d <? 90 + leap then 2
  else if d <? 120 + leap then 3
  else if d <? 151 + leap then 4
  else if d <? 181 + leap then 5
  else if d <? 212 + leap then 6
  else if d <? 243 + leap then 7
  else if d <? 273 + leap then 8
  else if d <? 304 + leap then 9
  else if d <? 334 + leap then 10
  else 11.

Definition DateFromTime (t : Z) : Z :=
  DayWithinYear t
  - MonthStart (MonthFromTime t) (InLeapYear (YearFromTime t)) + 1.

(** [MakeDay(year, month, date)]: months outside [0..11] carry into the
    year, and the date is an offset from the first of the month. *)
Definition MakeDay (year month date : Z) : Z :=
  let ym := year + month / 12 in
  let mn := month mod 12 in
  DayFromYear ym + MonthStart mn (InLeapYear ym) + date - 1.

Definition MakeDate (day time : Z) : Z := day * msPerDay + time.

(** The state of a [Date] object: its time value, [None] for [NaN]. *)
Definition t : Type := option Z.

(** [new Date(year, month, day)] with string arguments: each is converted
    by [ToNumber]; a year in [0..99] means [1900 + year]; the time of day is
    midnight.  With four-character year fields the result is far inside the
    range of [TimeClip], which is therefore the identity here. *)
Definition construct (year month day : string) : t :=
  match JS.StringToNumber year, JS.StringToNumber month, JS.StringToNumber day with
  | Int y, Int m, Int dt =>
      let yr := if (0 <=? y) && (y <=? 99) then 1900 + y else y in
      Some (MakeDate (MakeDay yr m dt) 0)
  | _, _, _ => None
  end.

Definition getFullYear (d : t) : number :=
  match d with Some tv => Int (YearFromTime tv) | None => NaN end.

Definition getMonth (d : t) : number :=
  match d with Some tv => Int (MonthFromTime tv) | None => NaN end.

Definition getDate (d : t) : number :=
  match d with Some tv => Int (DateFromTime tv) | None => NaN end.

(** [d.setDate(dt)]: the day of the month is replaced, the time of day is
    kept. *)
Definition setDate (d : t) (dt : number) : t :=
  match d, dt with
  | Some tv, Int n =>
      Some (MakeDate (MakeDay (YearFromTime tv) (MonthFromTime tv) n)
                     (TimeWithinDay tv))
  | _, _ => None
  end.

(** [a <= b] on two dates: a comparison of time values, false as soon as
    one is [NaN]. *)
Definition le (a b : t) : bool :=
  match a, b with
  | Some x, Some y => x <=? y
  | _, _ => false
  end.

(** [+] on two numbers. *)
Definition add (a b : number) : number :=
  match a, b with
  | Int x, Int y => Int (x + y)
  | _, _ => NaN
  end.

End Date.

(** ** Asynchronous computations

    An [async] function takes the world and returns its completion and the
    world it leaves.  The world type is a parameter until the scraper fixes
    it. *)

Definition Async (W A : Type) : Type := W → Completion A * W.

Definition aret {W A} (a : A) : Async W A := fun w => (Normal a, w).

Definition abind {W A B} (m : Async W A) (k : A → Async W B) : Async W B :=
  fun w =>
    match m w with
    | (Normal a, w') => k a w'
    | (Throw e, w') => (Throw e, w')
    end.

Notation "'await!' x := m 'in' k" := (abind m (fun x => k))
  (at level 10, x name, m at level 100, k at level 200).

(** The calls [l.map(f)] makes, one after the other: each runs to its first
    suspension, where it has issued its request, and the promise it returns
    is represented by the completion it will settle with. *)
Fixpoint start_all {W A B} (f : A → Async W B) (l : list A) (w : W)
  : list (Completion B) * W :=
  match l with
  | [] => ([], w)
  | x :: r =>
      let '(c, w1) := f x w in
      let '(cs, w2) := start_all f r w1 in
      (c :: cs, w2)
  end.

(** What [Promise.all] settles with: the values in the order of the
    promises when all are fulfilled, a rejection otherwise.  (JavaScript
    rejects with the reason of the promise that is rejected first in time;
    here it is the first in the list.) *)
Fixpoint promise_all {B} (cs : list (Completion B)) : Completion (list B) :=
  match cs with
  | [] => Normal []
  | c :: r =>
      match c, promise_all r with
      | Throw e, _ => Throw e
      | Normal _, Throw e => Throw e
      | Normal b, Normal bs => Normal (b :: bs)
      end
  end.

Definition fulfilled {B} (c : Completion B) : option B :=
  match c with Normal b => Some b | Throw _ => None end.

(** ** The promise pool

    [cacheNumberOnes] hands its fetches to
    [PromisePool.withConcurrency(100).for(dates).process(handler)] of the
    package [@supercharge/promise-pool].  The package is a dependency: its
    source is not in the repository, and the pool is modelled from what the
    specification says of it. *)

Module PromisePool.
Section Pool.
Context {W A B : Type}.
Variable concurrency : nat.
Variable handler : A → Async W B.

Record state : Type := mk {
  items : list A;                 (* not started yet *)
  tasks : list (Completion B);    (* active, each with what it settles with *)
  results : list B;
  errors : list JSError
}.

Definition init (l : list A) : state := mk l [] [] [].

Definition drained (s : state) : Prop := items s = [] ∧ tasks s = [].

(** Modelled from the spec: the worker pool of
    [@supercharge/promise-pool], which is not in the repository.  "A
    fixed-size pool of workers pulls the next unprocessed date until the
    queue is empty, gathering results as they complete", and "a failure
    fetching one date does not abort the batch": the items are taken in
    order; an item is started only while fewer than [concurrency] tasks are
    active; a task that settles leaves the active tasks, and its value is
    pushed on [results], or its error on [errors], at that moment.  Which
    active task settles next is up to the environment, so the pool is a
    step relation. *)
Inductive step : state * W → state * W → Prop :=
  | step_start x xs ts rs es w c w' :
      length ts < concurrency →
      handler x w = (c, w') →
      step (mk (x :: xs) ts rs es, w) (mk xs (ts ++ [c]) rs es, w')
  | step_fulfil xs ts1 b ts2 rs es w :
      step (mk xs (ts1 ++ Normal b :: ts2) rs es, w)
           (mk xs (ts1 ++ ts2) (rs ++ [b]) es, w)
  | step_reject xs ts1 e ts2 rs es w :
      step (mk xs (ts1 ++ Throw e :: ts2) rs es, w)
           (mk xs (ts1 ++ ts2) rs (es ++ [e]), w).

(** Modelled from the spec: [process] of the same package returns once no
    item is left and no task is active, with the results and the errors
    gathered.  From world [w] it may return [s] and leave world [w']. *)
Definition process (l : list A) (w : W) (s : state) (w' : W) : Prop :=
  rtc step (init l, w) (s, w') ∧ drained s.

(** The settlement of the active task at position [i]. *)
Definition settle (i : nat) (s : state) : state :=
  match tasks s !! i with
  | Some (Normal b) => mk (items s) (delete i (tasks s)) (results s ++ [b]) (errors s)
  | Some (Throw e) => mk (items s) (delete i (tasks s)) (results s) (errors s ++ [e])
  | None => s
  end.

(** One run of the pool, for a given choice of the task that settles
    next: [picks] gives, for each settlement, the position of the task
    among the active ones (position [0] when [picks] is exhausted).  Items
    are started as long as the cap allows. *)
Fixpoint exec (fuel : nat) (picks : list nat) (s : state) (w : W) : state * W :=
  match fuel with
  | O => (s, w)
  | S fuel' =>
      match items s with
      | x :: xs =>
          if decide (length (tasks s) < concurrency) then
            let '(c, w') := handler x w in
            exec fuel' picks (mk xs (tasks s ++ [c]) (results s) (errors s)) w'
          else
            exec fuel' (tail picks)
                 (settle (hd 0 picks `mod` length (tasks s)) s) w
      | [] =>
          match tasks s with
          | [] => (s, w)
          | _ :: _ =>
              exec fuel' (tail picks)
                   (settle (hd 0 picks `mod` length (tasks s)) s) w
          end
      end
  end.

Definition run (picks : list nat) (l : list A) (w : W) : state * W :=
  exec (2 * length l + 1) picks (init l) w.
End Pool.
End PromisePool.

(** ** The scraper: data *)

(** The object [getNumberOneRemote] returns, and the value type of the
    cache. *)
Module Entry.
Record t : Type := mk {
  date : string;
  actualChartStartDate : string;
  actualChartEndDate : string;
  track : string;
  artist : string;
  cover : value;
  year : value;
  month : value;
  day : value
}.
End Entry.

(** What the scraper reads in a chart page through cheerio: the text of the
    three selections (the empty string when nothing is selected) and the
    [src] attribute of the cover image ([undefined] when there is none). *)
Record Page : Type := mkPage {
  article_date : string;    (* $('.article-date').text() *)
  title_text : string;      (* $('... .title-artist .title').text() *)
  artist_text : string;     (* $('... .title-artist .artist').text() *)
  cover_src : value         (* $('.cover img').attr('src') *)
}.

Record World : Type := mkWorld {
  numberOnesData : gmap string Entry.t;  (* parsed once, when the module loads *)
  file : gmap string Entry.t;            (* ./data/number-ones.json *)
  requests : list string                 (* URLs of the GET requests, in order *)
}.

Definition log_request (url : string) (w : World) : World :=
  mkWorld (numberOnesData w) (file w) (requests w ++ [url]).

Definition writeFile (data : gmap string Entry.t) (w : World) : World :=
  mkWorld (numberOnesData w) data (requests w).

(** The arguments of one remote fetch of the backfill. *)
Record DateArgs : Type := mkDateArgs {
  da_year : number;
  da_month : string;
  da_day : string
}.

(** ** The scraper: functions *)

Section Scraper.
(** [axios_get k url]: what the request for [url] settles with when [k]
    requests were issued before it; [Throw] for a network failure or a
    status outside 2xx. *)
Variable axios_get : nat → string → Completion Page.

Definition axios_get_async (url : string) : Async World Page :=
  fun w => (axios_get (length (requests w)) url, log_request url w).

Definition months : list string :=
  ["January"; "February"; "March"; "April"; "May"; "June"; "July";
   "August"; "September"; "October"; "November"; "December"].

(** [parseDate(date)].  Calling [split] on a value that is not a string
    throws; on a string nothing does. *)
Definition parseDate (date : value) : Completion string :=
  match date with
  | VStr s =>
      let split := JS.trim <$> JS.split " " s in
      Normal (JS.ToString (JS.item split 2) +:+ "-"
              +:+ JS.ToString (VNum (Int (JS.indexOf months (JS.item split 1) + 1)))
              +:+ "-" +:+ JS.ToString (JS.item split 0))
  | _ => Throw TypeError
  end.

(** One word of [toSentenceCase]: [s[0]] is [undefined] on the empty
    string, and calling [toUpperCase] on it throws. *)
Definition sentence_word (s : string) : Completion string :=
  match s with
  | EmptyString => Throw TypeError
  | String c _ =>
      Normal (JS.toUpperCase (String c EmptyString)
              +:+ JS.toLowerCase (JS.substring1 s))
  end.

Fixpoint map_words (l : list string) : Completion (list string) :=
  match l with
  | [] => Normal []
  | s :: r =>
      try! w := sentence_word s in
      try! ws := map_words r in
      Normal (w :: ws)
  end.

(** The [try] block of [toSentenceCase]. *)
Definition toSentenceCase_try (val : value) : Completion string :=
  match val with
  | VStr s =>
      try! ws := map_words (JS.split " " s) in
      Normal (JS.join " " ws)
  | _ => Throw TypeError
  end.

(** [toSentenceCase(val)]: the [catch] turns every exception into [''] *)
Definition toSentenceCase (val : value) : string :=
  match toSentenceCase_try val with
  | Normal s => s
  | Throw _ => EmptyString
  end.

Definition chart_url (date : string) : string :=
  "https://www.officialcharts.com/charts/singles-chart/" +:+ date.

(** What [getNumberOneRemote] does with the page once the request is
    answered.  [chartDate[1]] is [undefined] when the text has no hyphen,
    and [trim] on it throws. *)
Definition read_page (year month day : value) (p : Page) : Completion Entry.t :=
  let chartDate := JS.split "-" (JS.trim (article_date p)) in
  try! chartStartDate :=
    match JS.item chartDate 0 with
    | VStr s => Normal (JS.trim s) | _ => Throw TypeError end in
  try! chartEndDate :=
    match JS.item chartDate 1 with
    | VStr s => Normal (JS.trim s) | _ => Throw TypeError end in
  let track := JS.trim (title_text p) in
  let artist := JS.trim (artist_text p) in
  let cover := cover_src p in
  try! start := parseDate (VStr chartStartDate) in
  try! end_ := parseDate (VStr chartEndDate) in
  Normal (Entry.mk
            (JS.ToString year +:+ "-" +:+ JS.ToString month +:+ "-" +:+ JS.ToString day)
            start end_
            (toSentenceCase (VStr track))
            (toSentenceCase (VStr artist))
            cover year month day).

(** [getNumberOneRemote(year, month, day)] *)
Definition getNumberOneRemote (year month day : value) : Async World Entry.t :=
  let date := JS.ToString year +:+ JS.ToString month +:+ JS.ToString day in
  let url := chart_url date in
  await! response := axios_get_async url in
  fun w => (read_page year month day response, w).

(** [getNumberOneLocal(year, month, day)]: a property read on the parsed
    file, [None] for [undefined].  The key contains a hyphen, so it names
    no property inherited from [Object.prototype]. *)
Definition getNumberOneLocal (year month day : value) (w : World) : option Entry.t :=
  numberOnesData w
    !! (JS.ToString year +:+ "-" +:+ JS.ToString month +:+ "-" +:+ JS.ToString day).

(** [getNumberOne(year, month, day)] *)
Definition getNumberOne (year month day : value) : Async World Entry.t :=
  let month := VStr (JS.slice_last 2 ("0" +:+ JS.ToString month)) in
  let day := VStr (JS.slice_last 2 ("0" +:+ JS.ToString day)) in
  fun w =>
    match getNumberOneLocal year month day w with
    | Some data => (Normal data, w)
    | None => getNumberOneRemote year month day w
    end.

(** [month > now.getMonth()], false when [month] is [NaN]. *)
Definition gt_number (a : number) (b : Z) : bool :=
  match a with Int x => (b <? x)%Z | NaN => false end.

(** The [while] loop of [getYearlyNumberOnes]; [None] when the fuel does
    not suffice. *)
Fixpoint years_loop (fuel : nat) (year : number) (currentYear : Z)
  : option (list Z) :=
  match year with
  | NaN => Some []
  | Int y =>
      if (y <=? currentYear)%Z then
        match fuel with
        | O => None
        | S fuel' => (y ::.) <$> years_loop fuel' (Int (y + 1)) currentYear
        end
      else Some []
  end.

Definition years_fuel (year : number) (currentYear : Z) : nat :=
  match year with
  | NaN => 0
  | Int y => Z.to_nat (currentYear - y + 1)
  end.

Definition years_between (year : number) (currentYear : Z) : list Z :=
  default [] (years_loop (years_fuel year currentYear) year currentYear).

(** [getYearlyNumberOnes(year, month, day)], with the time value of
    [new Date()] as [now]. *)
Definition getYearlyNumberOnes (now : Z) (year month day : value)
  : Async World (list Entry.t) :=
  let year := JS.parseInt year in
  let month := JS.parseInt month in
  let day := JS.parseInt day in
  let currentYear := Date.YearFromTime now in
  let currentYear :=
    if gt_number month (Date.MonthFromTime now) then (currentYear - 1)%Z
    else currentYear in
  let years := years_between year currentYear in
  fun w =>
    let '(cs, w') :=
      start_all (fun y => getNumberOne (VNum (Int y)) (VNum month) (VNum day))
                years w in
    (promise_all cs, w').

(** The [for] loop of [cacheNumberOnes]; [None] when the fuel does not
    suffice. *)
Fixpoint dates_loop (fuel : nat) (d now : Date.t) : option (list DateArgs) :=
  if Date.le d now then
    match fuel with
    | O => None
    | S fuel' =>
        let item :=
          mkDateArgs
            (Date.getFullYear d)
            (JS.slice_last 2 ("0" +:+ JS.NumberToString (Date.getMonth d)))
            (JS.slice_last 2 ("0" +:+ JS.NumberToString (Date.getDate d))) in
        (item ::.) <$>
          dates_loop fuel' (Date.setDate d (Date.add (Date.getDate d) (Int 1))) now
    end
  else Some [].

Definition dates_fuel (d : Date.t) (now : Z) : nat :=
  match d with
  | Some tv => Z.to_nat (Date.Day now - Date.Day tv + 1)
  | None => 0
  end.

(** The [dates] array of [cacheNumberOnes(date)]. *)
Definition dates_since (date : string) (now : Z) : list DateArgs :=
  let d := Date.construct (JS.slice 0 4 date) (JS.slice 4 6 date) (JS.slice 6 8 date) in
  default [] (dates_loop (dates_fuel d now) d (Some now)).

Definition fetch_date (d : DateArgs) : Async World Entry.t :=
  getNumberOneRemote (VNum (da_year d)) (VStr (da_month d)) (VStr (da_day d)).

(** [results.forEach((r) => { saveData[r.date] = r; })] on [saveData = {}] *)
Definition saveData (results : list Entry.t) : gmap string Entry.t :=
  foldl (fun m r => <[Entry.date r := r]> m) ∅ results.


(** [cacheNumberOnes(date)] returns [results] and leaves [w'], for some
    order in which the fetches settle.  ([date] is a string, and the write
    of the file is taken to succeed.) *)
Definition cacheNumberOnes_returns (now : Z) (date : string) (w : World)
    (results : list Entry.t) (w' : World) : Prop :=
  ∃ s wp,
    PromisePool.process 100 fetch_date (dates_since date now) w s wp
    ∧ results = PromisePool.results s
    ∧ w' = writeFile (saveData (PromisePool.results s)) wp.

(** [cacheNumberOnes(date)] when the fetches settle in the order [picks]
    gives. *)
Definition cacheNumberOnes (picks : list nat) (now : Z) (date : string)
  : Async World (list Entry.t) :=
  fun w =>
    let '(s, wp) :=
      PromisePool.run 100 fetch_date picks (dates_since date now) w in
    let results := PromisePool.results s in
    (Normal results, writeFile (saveData results) wp).

End Scraper.

(** ** Vocabulary of the specification *)

(** [contains c s]: the code unit [c] occurs in [s]. *)
Fixpoint contains (c : ascii) (s : string) : bool :=
  match s with
  | EmptyString => false
  | String x r => Ascii.eqb x c || contains c r
  end.

(** A word of a well-formed input: not empty, and without a space. *)
Definition is_word (w : string) : Prop :=
  w ≠ EmptyString ∧ contains " " w = false.

(** Sentence case of one word, in the words of the specification: the first
    character in upper case, the remainder in lower case. *)
Definition capitalize (w : string) : string :=
  match w with
  | EmptyString => EmptyString
  | String c r => String (JS.upper_char c) (JS.toLowerCase r)
  end.

(** The store invariant: an entry is filed under its own date. *)
Definition store_inv (m : gmap string Entry.t) : Prop :=
  ∀ k e, m !! k = Some e → Entry.date e = k.

(** Two decimal digits, with a leading zero below ten. *)
Definition digit_char (z : Z) : ascii := ascii_of_nat (48 + Z.to_nat z).

Definition two_digits (n : Z) : string :=
  String (digit_char (n / 10)) (String (digit_char (n `mod` 10)) EmptyString).



(** The key under which an entry fetched for [d] is filed, and the URL of
    its request. *)
Definition date_key (d : DateArgs) : string :=
  JS.NumberToString (da_year d) +:+ "-" +:+ da_month d +:+ "-" +:+ da_day d.

Definition date_url (d : DateArgs) : string :=
  chart_url (JS.NumberToString (da_year d) +:+ da_month d +:+ da_day d).

(** What the [for] loop of [cacheNumberOnes] pushes for the time value
    [tv]. *)
Definition args_of_time (tv : Z) : DateArgs :=
  mkDateArgs
    (Int (Date.YearFromTime tv))
    (JS.slice_last 2 ("0" +:+ pretty (Date.MonthFromTime tv)))
    (JS.slice_last 2 ("0" +:+ pretty (Date.DateFromTime tv))).

(** The key [getNumberOne] looks up, and files a remote entry under. *)
Definition pad2 (v : value) : string :=
  JS.slice_last 2 ("0" +:+ JS.ToString v).

Definition cache_key (year month day : value) : string :=
  JS.ToString year +:+ "-" +:+ pad2 month +:+ "-" +:+ pad2 day.


(** The number of days of month [m] (0 = January), 29 for February in a
    leap year. *)
Definition DaysInMonth (m leap : Z) : Z :=
  (if m =? 1 then 28 + leap
   else if (m =? 3) || (m =? 5) || (m =? 8) || (m =? 10) then 30
   else 31)%Z.

(** The time values the [for] loop of [cacheNumberOnes] visits from [tv]:
    one per day, as long as [now] is not passed. *)
Definition visited (tv now : Z) : list Z :=
  (fun k => tv + k * Date.msPerDay)%Z
    <$> seqZ 0 ((now - tv) / Date.msPerDay + 1)%Z.

(** What holds of every configuration the pool reaches from [init l] in
    world [w0]: the items started so far are a prefix of [l], started in
    order; each of their tasks is active or has been moved to [results] or
    [errors]; and no more than [concurrency] are active. *)
Definition pool_inv {W A B : Type} (concurrency : nat) (handler : A → Async W B)
    (l : list A) (w0 : W) (p : @PromisePool.state A B * W) : Prop :=
  ∃ started cs,
    l = started ++ PromisePool.items p.1
    ∧ start_all handler started w0 = (cs, p.2)
    ∧ cs ≡ₚ PromisePool.tasks p.1
            ++ (Normal <$> PromisePool.results p.1)
            ++ (Throw <$> PromisePool.errors p.1)
    ∧ length (PromisePool.tasks p.1) ≤ concurrency.

(** ** A sample world, for the examples

    A chart page, a network whose second request fails, and a world whose
    snapshot and file hold one entry from an earlier backfill.  [noon n] is
    the time value of midday on day number [n]. *)

Definition sample_page : Page :=
  mkPage "31 July 2020 - 6 August 2020" "RAIN ON ME"
         "LADY GAGA & ARIANA GRANDE" VUndefined.

Definition flaky_net (k : nat) (url : string) : Completion Page :=
  if (k =? 1)%nat then Throw RequestError else Normal sample_page.

Definition old_entry : Entry.t :=
  Entry.mk "1999-01-01" "1998-12-27" "1999-1-2" "Chocolate Salty Balls" "Chef"
           VUndefined (VNum (Int 1999)) (VStr "01") (VStr "01").

Definition sample_world : World :=
  mkWorld {[ "1999-01-01" := old_entry ]} {[ "1999-01-01" := old_entry ]} [].

Definition steady_net (k : nat) (url : string) : Completion Page :=
  Normal sample_page.

Definition empty_world : World := mkWorld ∅ ∅ [].

Definition noon (n : Z) : Z := (n * Date.msPerDay + 43200000)%Z.

(** ** The callers: [controllers/api.js] and [app.js] *)

(** What the API controller answers: the status and the JSON body. *)
Record ApiResponse : Type := mkApiResponse {
  res_status : Z;
  res_success : bool;
  res_count : nat
}.

(** The server around the scraper: the world of the scraper and the lines
    appended to [access_log.txt]. *)
Record Server : Type := mkServer {
  core : World;
  access_log : list string
}.

(** The arguments of [res.render('home', ...)]. *)
Record HomeView : Type := mkHomeView {
  hasResults : bool;
  view_date : value;
  view_data : list Entry.t
}.

(** [if (v)]: the values that count as true. *)
Definition truthy (v : value) : bool :=
  match v with
  | VUndefined | VNull => false
  | VNum NaN => false
  | VNum (Int z) => negb (z =? 0)%Z
  | VStr s => negb (String.eqb s EmptyString)
  end.

Section Callers.
Variable axios_get : nat → string → Completion Page.

(** [exports.cacheNumberOnes] of [controllers/api.js], with [date] the
    query parameter, when the fetches settle in the order [picks] gives. *)
Definition api_cacheNumberOnes (picks : list nat) (now : Z) (date : string)
  : Async World ApiResponse :=
  await! data := cacheNumberOnes axios_get picks now date in
  aret (mkApiResponse 200 true (length data)).


(** The handler of [GET /:date?] of [app.js].  [date] is the route
    parameter, a string or [undefined]; [stamp] is the text of the local
    date and time the log line starts with, and [log_ok] tells whether
    [appendFileSync] succeeds (its exception is caught and printed).  A
    rejected lookup is caught as well, and leaves [data] empty; calling
    [split] on a value that is not a string is outside the [try]. *)
Definition home (stamp : string) (log_ok : bool) (now : Z) (date : value)
  : Async Server HomeView :=
  fun sv =>
    if truthy date then
      let line :=
        String (ascii_of_nat 10)
               (stamp +:+ ": Track Fetch: " +:+ JS.ToString date) in
      let log := if log_ok then access_log sv ++ [line] else access_log sv in
      match date with
      | VStr s =>
          let dateSplit := JS.split "-" s in
          let year := JS.item dateSplit 0 in
          let month := JS.item dateSplit 1 in
          let day := JS.item dateSplit 2 in
          let '(c, w') :=
            getYearlyNumberOnes axios_get now year month day (core sv) in
          let data := match c with Normal d => d | Throw _ => [] end in
          (Normal (mkHomeView (0 <? length data)%nat date data),
           mkServer w' log)
      | _ => (Throw TypeError, mkServer (core sv) log)
      end
    else (Normal (mkHomeView false date []), sv).

End Callers.

(** The requests [getYearlyNumberOnes] issues for the years [ys]: one for
    each year whose key is not in the snapshot. *)
Definition yearly_requests (w : World) (month day : value) (ys : list Z)
  : list string :=
  (fun y => chart_url (pretty y +:+ pad2 month +:+ pad2 day))
    <$> filter (fun y => numberOnesData w
                           !! cache_key (VNum (Int y)) month day = None) ys.

(** The strings of ASCII characters.  On them the case mapping of the
    embedding is that of [toUpperCase] and [toLowerCase]; outside of them
    JavaScript maps some characters to other lengths (the sharp s to two
    letters), which the embedding does not. *)
Definition ascii_only (s : string) : bool :=
  forallb (fun c => (nat_of_ascii c <? 128)%nat) (list_ascii_of_string s).

(** The numbers JavaScript holds exactly and prints in full: [NaN] and the
    integers up to [2^53 - 1] in absolute value.  On them [parseInt], the
    arithmetic and the printing of the embedding are JavaScript's. *)
Definition safe_number (n : number) : bool :=
  match n with
  | NaN => true
  | Int z => (Z.abs z <=? 9007199254740991)%Z
  end.

Definition safe_value (v : value) : bool :=
  match v with
  | VNum n => safe_number n
  | _ => true
  end.

(** A query whose year, month and day [parseInt] reads as such numbers. *)
Definition safe_query (year month day : value) : bool :=
  safe_number (JS.parseInt year) && safe_number (JS.parseInt month)
  && safe_number (JS.parseInt day).

(** The last year [getYearlyNumberOnes] looks up: the current year, or the
    year before when the month is greater than the zero-based number of
    the current month. *)
Definition last_chart_year (now : Z) (month : number) : Z :=
  (if gt_number month (Date.MonthFromTime now)
   then Date.YearFromTime now - 1 else Date.YearFromTime now)%Z.

Definition sample_server : Server := mkServer sample_world [].

(** ** Properties of the built-ins *)

Section StringFacts.

Lemma split_no_sep sep w :
  contains sep w = false → JS.split sep w = [w].
Proof.
  induction w as [|c w IH]; simpl; [done|].
  intros [Hc Hw]%orb_false_elim. rewrite Hc, (IH Hw). done.
Qed.

Lemma split_app_sep sep w rest :
  contains sep w = false →
  JS.split sep (w +:+ String sep rest) = w :: JS.split sep rest.
Proof.
  induction w as [|c w IH]; simpl.
  - intros _. by rewrite Ascii.eqb_refl.
  - intros [Hc Hw]%orb_false_elim. rewrite Hc, (IH Hw). done.
Qed.

Lemma split_join sep ws :
  ws ≠ [] → Forall (fun w => contains sep w = false) ws →
  JS.split sep (JS.join (String sep EmptyString) ws) = ws.
Proof.
  intros Hne Hall. induction Hall as [|w ws Hw Hws IH]; [done|].
  destruct ws as [|w' ws'].
  - simpl. by apply split_no_sep.
  - change (JS.join (String sep EmptyString) (w :: w' :: ws'))
      with (w +:+ String sep (JS.join (String sep EmptyString) (w' :: ws'))).
    rewrite split_app_sep by done. f_equal. by apply IH.
Qed.

Lemma split_nonempty sep s : JS.split sep s ≠ [].
Proof.
  induction s as [|c s IH]; simpl; [done|].
  destruct (Ascii.eqb c sep); [done|]. by destruct (JS.split sep s).
Qed.

Lemma indexOf_from_absent i a x : x ∉ a → JS.indexOf_from i a x = (-1)%Z.
Proof.
  revert i. induction a as [|y a IH]; intros i Hx; simpl; [done|].
  apply not_elem_of_cons in Hx as [Hxy Ha].
  destruct (String.eqb_spec y x); [congruence|]. by apply IH.
Qed.

Lemma indexOf_from_present i a x :
  x ∈ a → (i <= JS.indexOf_from i a x < i + Z.of_nat (length a))%Z.
Proof.
  revert i. induction a as [|y a IH]; intros i Hx; simpl.
  - by apply elem_of_nil in Hx.
  - destruct (String.eqb_spec y x); [lia|].
    apply elem_of_cons in Hx as [->|Hx]; [done|].
    specialize (IH (i + 1)%Z Hx). lia.
Qed.

End StringFacts.

(** ** TextNormalizer and DateCodec *)

Section TextAndDates.

Lemma map_words_words ws :
  Forall (fun w => w ≠ EmptyString) ws →
  map_words ws = Normal (capitalize <$> ws).
Proof.
  induction 1 as [|w ws Hw _ IH]; [done|].
  simpl. rewrite IH. destruct w as [|c r]; [done|]. reflexivity.
Qed.

Lemma map_words_empty_token ws :
  EmptyString ∈ ws → map_words ws = Throw TypeError.
Proof.
  induction ws as [|w ws IH]; intros Hin.
  - by apply elem_of_nil in Hin.
  - apply elem_of_cons in Hin as [<-|Hin]; [done|].
    simpl. rewrite (IH Hin). by destruct w.
Qed.

Lemma map_words_throws ws e : map_words ws = Throw e → e = TypeError.
Proof.
  induction ws as [|w ws IH]; simpl; [done|].
  destruct w as [|c r]; simpl; [congruence|].
  destruct (map_words ws); simpl; [done|]. intros [= <-]. by apply IH.
Qed.


(** [parseDate] on three space-separated tokens, whatever the second
    token is. *)
Lemma parseDate_three_tokens d m y :
  contains " " d = false → contains " " m = false → contains " " y = false →
  parseDate (VStr (JS.join " " [d; m; y]))
  = Normal (JS.trim y +:+ "-"
            +:+ pretty (JS.indexOf_from 0 months (JS.trim m) + 1)%Z
            +:+ "-" +:+ JS.trim d).
Proof.
  intros Hd Hm Hy. unfold parseDate.
  rewrite split_join; [reflexivity|done|].
  by repeat constructor.
Qed.

(** C4, as the code has it.  [parseDate] on a "D Month YYYY" string whose
    month is not one of the twelve names does not fail: [indexOf] gives
    [-1], and the result is the string "YYYY-0-D". *)
Theorem parseDate_unknown_month d m y :
  contains " " d = false → contains " " m = false → contains " " y = false →
  JS.trim m ∉ months →
  parseDate (VStr (JS.join " " [d; m; y]))
  = Normal (JS.trim y +:+ "-0-" +:+ JS.trim d).
Proof.
  intros Hd Hm Hy Hmonth.
  rewrite parseDate_three_tokens by done.
  by rewrite indexOf_from_absent.
Qed.

(** With one of the twelve names the month number is between 1 and 12. *)
Lemma parseDate_known_month d m y :
  contains " " d = false → contains " " m = false → contains " " y = false →
  JS.trim m ∈ months →
  ∃ k, (1 <= k <= 12)%Z ∧
    parseDate (VStr (JS.join " " [d; m; y]))
    = Normal (JS.trim y +:+ "-" +:+ pretty k +:+ "-" +:+ JS.trim d).
Proof.
  intros Hd Hm Hy Hmonth.
  exists (JS.indexOf_from 0 months (JS.trim m) + 1)%Z. split.
  - pose proof (indexOf_from_present 0 _ _ Hmonth) as H.
    change (length months) with 12 in H. lia.
  - by apply parseDate_three_tokens.
Qed.

Example parseDate_1_August_2020 :
  parseDate (VStr "1 August 2020") = Normal "2020-8-1".
Proof. reflexivity. Qed.

End TextAndDates.

(** ** Properties of [Date] *)

Section DateFacts.
Local Open Scope Z_scope.
Import Date.

Lemma DayFromYear_succ y : DayFromYear (y + 1) = DayFromYear y + DaysInYear y.
Proof.
  unfold DayFromYear, DaysInYear.
  repeat match goal with
         | |- context [?a =? ?b] => destruct (Z.eqb_spec a b)
         end; simpl negb; cbv iota; Z.div_mod_to_equations; lia.
Qed.

Lemma DaysInYear_cases y : DaysInYear y = 365 ∨ DaysInYear y = 366.
Proof. unfold DaysInYear. repeat case_match; auto. Qed.

(** [YearFromDay n] is the year that contains day [n]. *)
Lemma YearFromDay_spec n :
  DayFromYear (YearFromDay n) <= n < DayFromYear (YearFromDay n + 1).
Proof.
  unfold YearFromDay.
  destruct (Z.ltb_spec n (DayFromYear (1970 + n * 400 / 146097))).
  - unfold DayFromYear in *. Z.div_mod_to_equations. lia.
  - destruct (Z.leb_spec (DayFromYear (1970 + n * 400 / 146097 + 1)) n).
    + unfold DayFromYear in *. Z.div_mod_to_equations. lia.
    + lia.
Qed.

Lemma DayWithinYear_range t :
  0 <= DayWithinYear t < 365 + InLeapYear (YearFromTime t).
Proof.
  unfold DayWithinYear, YearFromTime, InLeapYear.
  pose proof (YearFromDay_spec (Day t)) as H.
  rewrite DayFromYear_succ in H.
  destruct (DaysInYear_cases (YearFromDay (Day t))) as [E|E];
    rewrite E in *; simpl; lia.
Qed.

Lemma InLeapYear_cases y : InLeapYear y = 0 ∨ InLeapYear y = 1.
Proof. unfold InLeapYear. case_match; auto. Qed.

Lemma MonthFromTime_range t : 0 <= MonthFromTime t <= 11.
Proof. unfold MonthFromTime. repeat case_match; lia. Qed.

Lemma DateFromTime_range t : 1 <= DateFromTime t <= 31.
Proof.
  unfold DateFromTime, MonthFromTime.
  pose proof (DayWithinYear_range t) as H.
  destruct (InLeapYear_cases (YearFromTime t)) as [E|E]; rewrite E in *;
    repeat match goal with
           | |- context [?a <? ?b] => destruct (Z.ltb_spec a b)
           end; unfold MonthStart; simpl; lia.
Qed.

(** The three getters determine the day. *)
Lemma MakeDay_getters t :
  MakeDay (YearFromTime t) (MonthFromTime t) (DateFromTime t) = Day t.
Proof.
  pose proof (MonthFromTime_range t) as Hm.
  unfold MakeDay.
  rewrite (Z.div_small (MonthFromTime t) 12) by lia.
  rewrite (Z.mod_small (MonthFromTime t) 12) by lia.
  rewrite Z.add_0_r. unfold DateFromTime, DayWithinYear. lia.
Qed.

(** [d.setDate(d.getDate() + 1)] is the same time of day on the next
    day. *)
Lemma setDate_next t :
  setDate (Some t) (add (getDate (Some t)) (Int 1)) = Some (t + msPerDay).
Proof.
  pose proof (MonthFromTime_range t) as Hm.
  simpl. f_equal. unfold MakeDate, MakeDay.
  rewrite (Z.div_small (MonthFromTime t) 12) by lia.
  rewrite (Z.mod_small (MonthFromTime t) 12) by lia.
  rewrite Z.add_0_r. unfold DateFromTime, DayWithinYear, TimeWithinDay, Day.
  unfold msPerDay. Z.div_mod_to_equations. lia.
Qed.

Lemma Day_next t : Day (t + msPerDay) = Day t + 1.
Proof. unfold Day, msPerDay. Z.div_mod_to_equations. lia. Qed.

(** [YearFromDay n] is the only year that contains day [n]. *)
Lemma DayFromYear_mono y1 y2 : y1 <= y2 → DayFromYear y1 <= DayFromYear y2.
Proof. intros H. unfold DayFromYear. Z.div_mod_to_equations. lia. Qed.

Lemma YearFromDay_unique n y :
  DayFromYear y <= n < DayFromYear (y + 1) → YearFromDay n = y.
Proof.
  intros H. pose proof (YearFromDay_spec n) as H'.
  destruct (Z.lt_trichotomy (YearFromDay n) y) as [Hlt|[Heq|Hgt]]; [|done|].
  - pose proof (DayFromYear_mono (YearFromDay n + 1) y ltac:(lia)). lia.
  - pose proof (DayFromYear_mono (y + 1) (YearFromDay n) ltac:(lia)). lia.
Qed.

Ltac month_cases m :=
  assert (m = 0 ∨ m = 1 ∨ m = 2 ∨ m = 3 ∨ m = 4 ∨ m = 5 ∨ m = 6 ∨ m = 7
          ∨ m = 8 ∨ m = 9 ∨ m = 10 ∨ m = 11) as Hcases by lia;
  repeat destruct Hcases as [->|Hcases]; [..|subst m].

Lemma MonthStart_succ m leap :
  0 <= m < 11 → MonthStart (m + 1) leap = MonthStart m leap + DaysInMonth m leap.
Proof. intros H. month_cases m; unfold MonthStart, DaysInMonth; simpl; lia. Qed.

Lemma MonthStart_end m leap :
  0 <= m <= 11 → (leap = 0 ∨ leap = 1) →
  MonthStart m leap + DaysInMonth m leap <= 365 + leap
  ∧ 1 <= DaysInMonth m leap
  ∧ (m < 11 → MonthStart m leap + DaysInMonth m leap <= 334 + leap).
Proof.
  intros Hm Hleap.
  month_cases m; unfold MonthStart, DaysInMonth; simpl; lia.
Qed.

(** The month of a time value is the one whose days contain its day within
    the year. *)
Lemma MonthFromTime_bounds t :
  let m := MonthFromTime t in
  let leap := InLeapYear (YearFromTime t) in
  MonthStart m leap <= DayWithinYear t < MonthStart m leap + DaysInMonth m leap.
Proof.
  intros m leap. subst m. unfold MonthFromTime. fold leap.
  pose proof (DayWithinYear_range t) as Hr. fold leap in Hr.
  destruct (InLeapYear_cases (YearFromTime t)) as [E|E]; fold leap in E;
    rewrite E in *;
    repeat match goal with
           | |- context [?a <? ?b] => destruct (Z.ltb_spec a b)
           end; unfold MonthStart, DaysInMonth; simpl; lia.
Qed.

Lemma month_of_bounds d leap m :
  0 <= m <= 11 → (leap = 0 ∨ leap = 1) →
  MonthStart m leap <= d < MonthStart m leap + DaysInMonth m leap →
  (if d <? 31 then 0
   else if d <? 59 + leap then 1
   else if d <? 90 + leap then 2
   else if d <? 120 + leap then 3
   else if d <? 151 + leap then 4
   else if d <? 181 + leap then 5
   else if d <? 212 + leap then 6
   else if d <? 243 + leap then 7
   else if d <? 273 + leap then 8
   else if d <? 304 + leap then 9
   else if d <? 334 + leap then 10
   else 11) = m.
Proof.
  intros Hm Hleap. month_cases m; unfold MonthStart, DaysInMonth; simpl; intros Hd;
    destruct Hleap as [-> | ->];
    repeat match goal with
           | |- context [?a <? ?b] => destruct (Z.ltb_spec a b); try lia
           end; reflexivity.
Qed.

(** The getters on the next day: the day of the month advances inside the
    month, the month at the end of the month, the year at the end of
    December; February has 29 days in a leap year. *)
Lemma next_day_getters t :
  let Y := YearFromTime t in
  let M := MonthFromTime t in
  let D := DateFromTime t in
  let t' := t + msPerDay in
  (YearFromTime t', MonthFromTime t', DateFromTime t')
  = if D <? DaysInMonth M (InLeapYear Y) then (Y, M, D + 1)
    else if M <? 11 then (Y, M + 1, 1)
    else (Y + 1, 0, 1).
Proof.
  intros Y M D t'.
  pose proof (DayWithinYear_range t) as Hr.
  pose proof (YearFromDay_spec (Day t)) as Hs.
  pose proof (DayFromYear_succ (YearFromDay (Day t))) as Hsucc.
  pose proof (DayFromYear_succ (YearFromDay (Day t) + 1)) as Hsucc2.
  pose proof (DaysInYear_cases (YearFromDay (Day t) + 1)) as Hc2.
  pose proof (MonthFromTime_range t) as HM.
  pose proof (MonthFromTime_bounds t) as HB. simpl in HB.
  pose proof (InLeapYear_cases Y) as HL.
  assert (Day t' = Day t + 1) as Hd by apply Day_next.
  assert (DaysInYear (YearFromDay (Day t))
          = 365 + InLeapYear (YearFromDay (Day t))) as Hdy.
  { unfold InLeapYear.
    destruct (DaysInYear_cases (YearFromDay (Day t))) as [E|E]; by rewrite E. }
  fold Y M in HB, Hr, HM.
  set (L := InLeapYear Y) in *.
  assert (D = DayWithinYear t - MonthStart M L + 1) as HD by reflexivity.
  clearbody D.
  destruct (Z.ltb_spec D (DaysInMonth M L)) as [Hin|Hend];
    [|destruct (Z.ltb_spec M 11) as [Hm|Hm]].
  - (* inside the month *)
    assert (YearFromTime t' = Y) as HY.
    { unfold YearFromTime. rewrite Hd. apply YearFromDay_unique.
      pose proof (MonthStart_end M L HM HL) as (Hx & _ & _).
      unfold L, Y, DayWithinYear, YearFromTime in *. lia. }
    assert (DayWithinYear t' = DayWithinYear t + 1) as Hw.
    { unfold DayWithinYear. rewrite HY, Hd. unfold Y. lia. }
    assert (MonthFromTime t' = M) as HM'.
    { unfold MonthFromTime. rewrite HY, Hw. fold L.
      apply month_of_bounds; [done|done|lia]. }
    unfold DateFromTime. rewrite HY, HM', Hw. fold L. do 2 f_equal. lia.
  - (* last day of a month before December *)
    pose proof (MonthStart_succ M L ltac:(lia)) as HS.
    pose proof (MonthStart_end M L HM HL) as (_ & _ & Hx).
    pose proof (MonthStart_end (M + 1) L ltac:(lia) HL) as (_ & Hy & _).
    specialize (Hx Hm).
    assert (YearFromTime t' = Y) as HY.
    { unfold YearFromTime. rewrite Hd. apply YearFromDay_unique.
      unfold L, Y, DayWithinYear, YearFromTime in *. lia. }
    assert (DayWithinYear t' = DayWithinYear t + 1) as Hw.
    { unfold DayWithinYear. rewrite HY, Hd. unfold Y. lia. }
    assert (MonthFromTime t' = M + 1) as HM'.
    { unfold MonthFromTime. rewrite HY, Hw. fold L.
      apply month_of_bounds; [lia|done|lia]. }
    unfold DateFromTime. rewrite HY, HM', Hw. fold L. do 2 f_equal. lia.
  - (* 31 December *)
    assert (M = 11) as HM11 by lia.
    rewrite HM11 in *. unfold MonthStart, DaysInMonth in HB, HD, Hend.
    simpl in HB, HD, Hend.
    assert (YearFromTime t' = Y + 1) as HY.
    { unfold YearFromTime. rewrite Hd. apply YearFromDay_unique.
      unfold L, Y, DayWithinYear, YearFromTime in *. lia. }
    assert (DayWithinYear t' = 0) as Hw.
    { unfold DayWithinYear. rewrite HY, Hd.
      unfold L, Y, DayWithinYear, YearFromTime in *. lia. }
    unfold DateFromTime, MonthFromTime. rewrite HY, Hw. reflexivity.
Qed.

(** [d.setDate(d.getDate() + 1)], read through the getters. *)
Lemma nextDay_rollover t :
  let d := Some t in
  let d' := setDate d (add (getDate d) (Int 1)) in
  (getFullYear d', getMonth d', getDate d')
  = if DateFromTime t <? DaysInMonth (MonthFromTime t) (InLeapYear (YearFromTime t))
    then (Int (YearFromTime t), Int (MonthFromTime t), Int (DateFromTime t + 1))
    else if MonthFromTime t <? 11
    then (Int (YearFromTime t), Int (MonthFromTime t + 1), Int 1)
    else (Int (YearFromTime t + 1), Int 0, Int 1).
Proof.
  intros d d'. subst d d'. rewrite setDate_next.
  cbn [getFullYear getMonth getDate].
  pose proof (next_day_getters t) as H. cbv zeta in H.
  repeat case_match; injection H as -> -> ->; reflexivity.
Qed.

(** Leap-year and year rollover of the getters, as the specification
    words them. *)
Example next_day_leap_february :
  let d := setDate (construct "2024" "1" "29") (Int 30) in
  (getFullYear d, getMonth d, getDate d) = (Int 2024, Int 2, Int 1).
Proof. reflexivity. Qed.

Example next_day_december :
  let d := setDate (construct "2023" "11" "31") (Int 32) in
  (getFullYear d, getMonth d, getDate d) = (Int 2024, Int 0, Int 1).
Proof. reflexivity. Qed.

End DateFacts.

(** ** Properties of the promise pool *)

Section PoolFacts.
Context {W A B : Type}.
Variable concurrency : nat.
Variable handler : A → Async W B.

Local Abbreviation state := (@PromisePool.state A B).
Local Abbreviation step := (PromisePool.step concurrency handler).

Lemma start_all_app (l1 l2 : list A) (w : W) :
  start_all handler (l1 ++ l2) w =
    let '(cs1, w1) := start_all handler l1 w in
    let '(cs2, w2) := start_all handler l2 w1 in
    (cs1 ++ cs2, w2).
Proof.
  revert w. induction l1 as [|x l1 IH]; intros w; simpl.
  - by destruct (start_all handler l2 w).
  - destruct (handler x w) as [c w1]. rewrite IH.
    destruct (start_all handler l1 w1) as [cs1 w2].
    by destruct (start_all handler l2 w2).
Qed.

Local Abbreviation pool_inv := (pool_inv concurrency handler).

Lemma pool_inv_init l w0 : pool_inv l w0 (PromisePool.init l, w0).
Proof. exists [], []. simpl. split_and!; [done|done|done|lia]. Qed.

Lemma pool_inv_step l w0 p q : pool_inv l w0 p → step p q → pool_inv l w0 q.
Proof.
  intros (started & cs & Hl & Hrun & Hperm & Hcap) Hstep.
  destruct Hstep as [x xs ts rs es w c w' Hlt Hh
                    | xs ts1 b ts2 rs es w
                    | xs ts1 e ts2 rs es w]; simpl in *.
  - exists (started ++ [x]), (cs ++ [c]). simpl. split_and!.
    + by rewrite <-app_assoc.
    + rewrite start_all_app, Hrun. simpl. by rewrite Hh.
    + rewrite Hperm. solve_Permutation.
    + rewrite length_app. simpl. lia.
  - exists started, cs. simpl. split_and!; [done|done| |].
    + rewrite Hperm, fmap_app. simpl. solve_Permutation.
    + rewrite length_app in *. simpl in *. lia.
  - exists started, cs. simpl. split_and!; [done|done| |].
    + rewrite Hperm, fmap_app. simpl. solve_Permutation.
    + rewrite length_app in *. simpl in *. lia.
Qed.

Lemma pool_inv_reachable l w0 p :
  rtc step (PromisePool.init l, w0) p → pool_inv l w0 p.
Proof.
  intros Hrtc.
  refine (rtc_ind_r (R := step) (pool_inv l w0) (PromisePool.init l, w0)
            (pool_inv_init l w0) _ p Hrtc).
  intros y z _ Hstep IH. by eapply pool_inv_step.
Qed.

Lemma omap_fulfilled_settled (rs : list B) (es : list JSError) :
  omap fulfilled ((Normal <$> rs) ++ (Throw <$> es)) = rs.
Proof.
  rewrite omap_app.
  assert (omap fulfilled (Throw (A := B) <$> es) = []) as ->
    by (induction es; simpl; auto).
  rewrite app_nil_r. induction rs as [|r rs IH]; [done|].
  change (r :: omap fulfilled (Normal <$> rs) = r :: rs). by f_equal.
Qed.

(** What [process] returns: every item was started, in order, and
    [results] holds the values of the fulfilled tasks, in some order. *)
Lemma process_results l w0 s w' :
  PromisePool.process concurrency handler l w0 s w' →
  ∃ cs, start_all handler l w0 = (cs, w')
        ∧ PromisePool.results s ≡ₚ omap fulfilled cs.
Proof.
  intros [Hrtc [Hitems Htasks]].
  apply pool_inv_reachable in Hrtc as (started & cs & Hl & Hrun & Hperm & _).
  simpl in *. rewrite Hitems, app_nil_r in Hl. subst started.
  exists cs. split; [done|].
  rewrite Htasks in Hperm. simpl in Hperm.
  by rewrite Hperm, omap_fulfilled_settled.
Qed.

(** The executable run is a run of the pool. *)
Lemma settle_step i (s : state) w :
  i < length (PromisePool.tasks s) →
  step (s, w) (PromisePool.settle i s, w).
Proof.
  intros Hi. destruct s as [xs ts rs es]. unfold PromisePool.settle. simpl in *.
  destruct (lookup_lt_is_Some_2 ts i Hi) as [c Hc]. rewrite Hc.
  pose proof (take_drop_middle ts i c Hc) as Hts.
  rewrite delete_take_drop.
  destruct c as [b|e]; rewrite <-Hts at 1; constructor.
Qed.

Lemma settle_length i (s : state) :
  i < length (PromisePool.tasks s) →
  S (length (PromisePool.tasks (PromisePool.settle i s)))
  = length (PromisePool.tasks s)
  ∧ PromisePool.items (PromisePool.settle i s) = PromisePool.items s.
Proof.
  intros Hi. unfold PromisePool.settle.
  destruct (lookup_lt_is_Some_2 _ i Hi) as [c Hc]. rewrite Hc.
  destruct c; simpl; rewrite length_delete by eauto; split; (lia || done).
Qed.

Lemma exec_steps fuel picks (s : state) w :
  0 < concurrency →
  rtc step (s, w) (PromisePool.exec concurrency handler fuel picks s w).
Proof.
  intros Hc. revert picks s w.
  induction fuel as [|fuel IH]; intros picks s w; simpl; [done|].
  destruct s as [xs ts rs es]; simpl.
  assert (∀ k, ts ≠ [] →
    rtc step (PromisePool.mk xs ts rs es, w)
      (PromisePool.exec concurrency handler fuel (tail picks)
         (PromisePool.settle (k `mod` length ts) (PromisePool.mk xs ts rs es)) w))
    as Hsettle.
  { intros k Hts. eapply rtc_l; [|apply IH].
    apply settle_step. simpl. apply Nat.mod_upper_bound.
    by destruct ts. }
  destruct xs as [|x xs].
  - destruct ts as [|c ts]; [done|]. by apply Hsettle.
  - case_decide as Hlt.
    + destruct (handler x w) as [c w'] eqn:Hh.
      eapply rtc_l; [|apply IH]. by constructor.
    + apply Hsettle. destruct ts; simpl in *; [lia|done].
Qed.

Lemma exec_drained fuel picks (s : state) w :
  0 < concurrency →
  2 * length (PromisePool.items s) + length (PromisePool.tasks s) ≤ fuel →
  PromisePool.drained (PromisePool.exec concurrency handler fuel picks s w).1.
Proof.
  intros Hc. revert picks s w.
  induction fuel as [|fuel IH]; intros picks s w Hfuel; simpl.
  - destruct s as [xs ts rs es]; simpl in *.
    destruct xs, ts; simpl in *; try lia. by split.
  - destruct s as [xs ts rs es]; simpl in *.
    assert (∀ k, ts ≠ [] →
      2 * length xs + length ts ≤ S fuel →
      PromisePool.drained
        (PromisePool.exec concurrency handler fuel (tail picks)
           (PromisePool.settle (k `mod` length ts) (PromisePool.mk xs ts rs es)) w).1)
      as Hsettle.
    { intros k Hts Hf. apply IH.
      destruct (settle_length (k `mod` length ts) (PromisePool.mk xs ts rs es))
        as [Hlen Hits].
      { simpl. apply Nat.mod_upper_bound. by destruct ts. }
      simpl in *. rewrite Hits. lia. }
    destruct xs as [|x xs].
    + destruct ts as [|c ts]; [by split|]. by apply Hsettle.
    + case_decide as Hlt.
      * destruct (handler x w) as [c w'] eqn:Hh.
        apply IH. simpl. rewrite length_app. simpl in *. lia.
      * apply Hsettle; [|done]. destruct ts; simpl in *; [lia|done].
Qed.

Lemma run_process picks l w :
  0 < concurrency →
  PromisePool.process concurrency handler l w
    (PromisePool.run concurrency handler picks l w).1
    (PromisePool.run concurrency handler picks l w).2.
Proof.
  intros Hc. unfold PromisePool.process, PromisePool.run. split.
  - rewrite <-surjective_pairing. by apply exec_steps.
  - apply exec_drained; [done|]. simpl. lia.
Qed.

End PoolFacts.

(** ** Keys and zero padding *)

Section Keys.
Local Open Scope Z_scope.

Lemma append_nil_l (s : string) : EmptyString +:+ s = s.
Proof. reflexivity. Qed.

Lemma append_cons (c : ascii) (s t : string) :
  String c s +:+ t = String c (s +:+ t).
Proof. reflexivity. Qed.

Lemma string_length_app (s t : string) :
  String.length (s +:+ t) = (String.length s + String.length t)%nat.
Proof.
  induction s as [|c s IH]; [done|].
  rewrite append_cons. simpl. by rewrite IH.
Qed.

Lemma string_app_inj_suffix (s1 s2 t1 t2 : string) :
  String.length s2 = String.length t2 →
  s1 +:+ s2 = t1 +:+ t2 → s1 = t1 ∧ s2 = t2.
Proof.
  revert t1. induction s1 as [|c s1 IH]; intros [|c' t1] Hlen Heq;
    rewrite ?append_nil_l, ?append_cons in Heq.
  - done.
  - rewrite Heq in Hlen. simpl in Hlen. rewrite string_length_app in Hlen. lia.
  - rewrite <-Heq in Hlen. simpl in Hlen. rewrite string_length_app in Hlen. lia.
  - injection Heq as -> Heq. destruct (IH _ Hlen Heq) as [-> ->]. done.
Qed.

Lemma composite_key_inj (y m d y' m' d' : string) :
  String.length m = 2%nat → String.length d = 2%nat →
  String.length m' = 2%nat → String.length d' = 2%nat →
  y +:+ "-" +:+ m +:+ "-" +:+ d = y' +:+ "-" +:+ m' +:+ "-" +:+ d' →
  y = y' ∧ m = m' ∧ d = d'.
Proof.
  intros Hm Hd Hm' Hd' Heq.
  apply string_app_inj_suffix in Heq as [-> Heq].
  - rewrite ?append_cons, ?append_nil_l in Heq. injection Heq as Heq.
    apply string_app_inj_suffix in Heq as [-> Heq].
    + rewrite ?append_cons, ?append_nil_l in Heq. by injection Heq as ->.
    + rewrite ?append_cons, ?append_nil_l. simpl. congruence.
  - rewrite ?append_cons, ?append_nil_l. simpl.
    rewrite ?string_length_app, ?append_cons, ?append_nil_l. simpl. lia.
Qed.

(** A property checked on every number of a range holds on the range. *)
Lemma range_check (P : Z → bool) (lo len : Z) :
  forallb P (seqZ lo len) = true → ∀ n, lo <= n < lo + len → P n = true.
Proof.
  intros Hall n Hn. rewrite forallb_forall in Hall. apply Hall.
  apply list_elem_of_In, elem_of_seqZ. lia.
Qed.

(** [`0${n}`.slice(-2)] is [n] on two digits. *)
Lemma pad2_two_digits n :
  0 <= n <= 99 → JS.slice_last 2 ("0" +:+ pretty n) = two_digits n.
Proof.
  intros Hn. apply String.eqb_eq.
  apply (range_check
           (fun n => String.eqb (JS.slice_last 2 ("0" +:+ pretty n)) (two_digits n))
           0 100); [by vm_compute | lia].
Qed.

Lemma two_digits_length n : String.length (two_digits n) = 2%nat.
Proof. reflexivity. Qed.

Lemma two_digits_inj n m :
  0 <= n <= 99 → 0 <= m <= 99 → two_digits n = two_digits m → n = m.
Proof.
  intros Hn Hm Heq.
  pose proof (range_check
    (fun n => forallb (fun m => implb (String.eqb (two_digits n) (two_digits m))
                                      (n =? m)) (seqZ 0 100))
    0 100 ltac:(by vm_compute) n ltac:(lia)) as H.
  cbv beta in H. rewrite forallb_forall in H.
  specialize (H m). rewrite (proj2 (String.eqb_eq _ _) Heq) in H.
  apply Z.eqb_eq, H, list_elem_of_In, elem_of_seqZ. lia.
Qed.


(** Distinct days give distinct arguments, keys and URLs. *)
Lemma args_of_time_month tv :
  da_month (args_of_time tv) = two_digits (Date.MonthFromTime tv).
Proof.
  pose proof (MonthFromTime_range tv). simpl. apply pad2_two_digits. lia.
Qed.

Lemma args_of_time_day tv :
  da_day (args_of_time tv) = two_digits (Date.DateFromTime tv).
Proof.
  pose proof (DateFromTime_range tv). simpl. apply pad2_two_digits. lia.
Qed.

Lemma date_key_args_inj tv tv' :
  date_key (args_of_time tv) = date_key (args_of_time tv') →
  Date.Day tv = Date.Day tv'.
Proof.
  unfold date_key. rewrite !args_of_time_month, !args_of_time_day.
  intros Heq. apply composite_key_inj in Heq as (Hy & Hm & Hd);
    try apply two_digits_length.
  simpl in Hy. apply (inj pretty) in Hy.
  pose proof (MonthFromTime_range tv). pose proof (MonthFromTime_range tv').
  pose proof (DateFromTime_range tv). pose proof (DateFromTime_range tv').
  apply two_digits_inj in Hm; [|lia..].
  apply two_digits_inj in Hd; [|lia..].
  rewrite <-(MakeDay_getters tv), <-(MakeDay_getters tv').
  by rewrite Hy, Hm, Hd.
Qed.

End Keys.

(** ** The loops *)

Section Loops.
Local Open Scope Z_scope.

Lemma visited_stop tv now : now < tv → visited tv now = [].
Proof.
  intros H. unfold visited. rewrite seqZ_nil; [done|].
  unfold Date.msPerDay. Z.div_mod_to_equations. lia.
Qed.

Lemma visited_go tv now :
  tv <= now → visited tv now = tv :: visited (tv + Date.msPerDay) now.
Proof.
  intros H. unfold visited.
  assert ((now - tv) / Date.msPerDay
          = (now - (tv + Date.msPerDay)) / Date.msPerDay + 1) as E
    by (unfold Date.msPerDay; Z.div_mod_to_equations; lia).
  assert (0 <= (now - tv) / Date.msPerDay) as Hpos
    by (unfold Date.msPerDay; Z.div_mod_to_equations; lia).
  rewrite seqZ_cons by lia. rewrite fmap_cons. f_equal; [lia|].
  replace (Z.succ 0) with (1 + 0) by lia.
  rewrite <-fmap_add_seqZ, <-list_fmap_compose.
  replace (Z.pred ((now - tv) / Date.msPerDay + 1))
    with ((now - (tv + Date.msPerDay)) / Date.msPerDay + 1) by lia.
  apply list_fmap_ext. intros _ k _. simpl. unfold Date.msPerDay. lia.
Qed.

(** With enough fuel the loop ends on its condition, and pushes one item
    for each time value visited. *)
Lemma dates_loop_enough fuel tv now :
  (now - tv) / Date.msPerDay + 1 <= Z.of_nat fuel →
  dates_loop fuel (Some tv) (Some now) = Some (args_of_time <$> visited tv now).
Proof.
  revert tv. induction fuel as [|fuel IH]; intros tv Hfuel.
  - assert (now < tv) as Hlt
      by (revert Hfuel; unfold Date.msPerDay; Z.div_mod_to_equations; lia).
    rewrite visited_stop by done. simpl.
    destruct (Z.leb_spec tv now); [lia|done].
  - cbn [dates_loop Date.le].
    destruct (Z.leb_spec tv now) as [Hle|Hlt].
    + assert ((now - (tv + Date.msPerDay)) / Date.msPerDay
              = (now - tv) / Date.msPerDay - 1) as E
        by (unfold Date.msPerDay; Z.div_mod_to_equations; lia).
      rewrite setDate_next, IH, (visited_go tv) by (done || lia).
      reflexivity.
    + by rewrite visited_stop.
Qed.

Lemma dates_fuel_enough tv now :
  (now - tv) / Date.msPerDay + 1 <= Z.of_nat (dates_fuel (Some tv) now).
Proof.
  unfold dates_fuel, Date.Day, Date.msPerDay. Z.div_mod_to_equations. lia.
Qed.

(** The [dates] array, in closed form. *)
Lemma dates_since_visited date now :
  dates_since date now =
    match Date.construct (JS.slice 0 4 date) (JS.slice 4 6 date) (JS.slice 6 8 date) with
    | Some tv => args_of_time <$> visited tv now
    | None => []
    end.
Proof.
  unfold dates_since.
  destruct (Date.construct _ _ _) as [tv|]; [|done].
  by rewrite dates_loop_enough by apply dates_fuel_enough.
Qed.

(** The loop never runs out of the fuel [dates_since] gives it. *)
Lemma dates_loop_terminates date now :
  let d := Date.construct (JS.slice 0 4 date) (JS.slice 4 6 date) (JS.slice 6 8 date) in
  is_Some (dates_loop (dates_fuel d now) d (Some now)).
Proof.
  simpl. destruct (Date.construct _ _ _) as [tv|]; [|by eexists].
  rewrite dates_loop_enough by apply dates_fuel_enough. by eexists.
Qed.

Lemma visited_lookup tv now i t :
  visited tv now !! i = Some t → t = tv + Z.of_nat i * Date.msPerDay.
Proof.
  unfold visited. rewrite list_lookup_fmap.
  destruct (seqZ 0 _ !! i) as [k|] eqn:Hk; [|done].
  apply lookup_seqZ in Hk as [-> _]. simpl. intros [= <-].
  unfold Date.msPerDay. lia.
Qed.

Lemma visited_Day tv now i t :
  visited tv now !! i = Some t → Date.Day t = Date.Day tv + Z.of_nat i.
Proof.
  intros ->%visited_lookup. unfold Date.Day, Date.msPerDay.
  Z.div_mod_to_equations. lia.
Qed.

(** The keys of the dates of one backfill are pairwise distinct. *)
Lemma dates_since_keys_NoDup date now :
  NoDup (date_key <$> dates_since date now).
Proof.
  rewrite dates_since_visited.
  destruct (Date.construct _ _ _) as [tv|]; [|constructor].
  rewrite <-list_fmap_compose. apply NoDup_alt. intros i j k Hi Hj.
  rewrite list_lookup_fmap in Hi, Hj.
  destruct (visited tv now !! i) as [ti|] eqn:Eti; [|done].
  destruct (visited tv now !! j) as [tj|] eqn:Etj; [|done].
  simpl in Hi, Hj. injection Hi as <-. injection Hj as Hj.
  apply date_key_args_inj in Hj.
  apply visited_Day in Eti, Etj. lia.
Qed.

(** The [while] loop of [getYearlyNumberOnes]. *)
Lemma years_loop_enough fuel y last :
  last - y + 1 <= Z.of_nat fuel →
  years_loop fuel (Int y) last = Some (seqZ y (last - y + 1)).
Proof.
  revert y. induction fuel as [|fuel IH]; intros y Hfuel; simpl.
  - destruct (Z.leb_spec y last); [lia|]. by rewrite seqZ_nil by lia.
  - destruct (Z.leb_spec y last).
    + rewrite IH by lia. simpl. rewrite (seqZ_cons y) by lia.
      do 3 f_equal; lia.
    + by rewrite seqZ_nil by lia.
Qed.

Lemma years_between_seqZ y last :
  years_between (Int y) last = seqZ y (last - y + 1).
Proof.
  unfold years_between. rewrite years_loop_enough; [done|]. simpl. lia.
Qed.

End Loops.

(** ** The scraper: effects and results of the fetches *)

Section ScraperFacts.
Variable axios_get : nat → string → Completion Page.


Lemma read_page_date year month day p e :
  read_page year month day p = Normal e →
  Entry.date e
  = JS.ToString year +:+ "-" +:+ JS.ToString month +:+ "-" +:+ JS.ToString day.
Proof.
  unfold read_page.
  destruct (JS.item (JS.split "-" (JS.trim (article_date p))) 0); try done.
  destruct (JS.item (JS.split "-" (JS.trim (article_date p))) 1); try done.
  simpl. by intros [= <-].
Qed.

(** A remote fetch issues exactly one request and touches nothing else. *)
Lemma getNumberOneRemote_world year month day w :
  (getNumberOneRemote axios_get year month day w).2
  = log_request
      (chart_url (JS.ToString year +:+ JS.ToString month +:+ JS.ToString day)) w.
Proof.
  unfold getNumberOneRemote, abind, axios_get_async.
  by destruct (axios_get _ _).
Qed.

Lemma getNumberOneRemote_date year month day w e :
  (getNumberOneRemote axios_get year month day w).1 = Normal e →
  Entry.date e
  = JS.ToString year +:+ "-" +:+ JS.ToString month +:+ "-" +:+ JS.ToString day.
Proof.
  unfold getNumberOneRemote, abind, axios_get_async.
  destruct (axios_get _ _); simpl; [|done]. apply read_page_date.
Qed.

Lemma getNumberOne_hit year month day w e :
  numberOnesData w !! cache_key year month day = Some e →
  getNumberOne axios_get year month day w = (Normal e, w).
Proof.
  intros H. unfold getNumberOne, getNumberOneLocal. simpl.
  fold (pad2 month) (pad2 day) (cache_key year month day). by rewrite H.
Qed.

Lemma getNumberOne_miss year month day w :
  numberOnesData w !! cache_key year month day = None →
  getNumberOne axios_get year month day w
  = getNumberOneRemote axios_get year (VStr (pad2 month)) (VStr (pad2 day)) w.
Proof.
  intros H. unfold getNumberOne, getNumberOneLocal. simpl.
  fold (pad2 month) (pad2 day) (cache_key year month day). by rewrite H.
Qed.

(** [getNumberOne] writes neither the snapshot nor the file. *)
Lemma getNumberOne_frame year month day w :
  numberOnesData (getNumberOne axios_get year month day w).2 = numberOnesData w
  ∧ file (getNumberOne axios_get year month day w).2 = file w.
Proof.
  destruct (numberOnesData w !! cache_key year month day) as [e|] eqn:H.
  - by rewrite (getNumberOne_hit _ _ _ _ _ H).
  - by rewrite (getNumberOne_miss _ _ _ _ H), getNumberOneRemote_world.
Qed.

Lemma getNumberOne_date year month day w e :
  store_inv (numberOnesData w) →
  (getNumberOne axios_get year month day w).1 = Normal e →
  Entry.date e = cache_key year month day.
Proof.
  intros Hinv.
  destruct (numberOnesData w !! cache_key year month day) as [e0|] eqn:H.
  - rewrite (getNumberOne_hit _ _ _ _ _ H). simpl. intros [= <-].
    by apply Hinv.
  - rewrite (getNumberOne_miss _ _ _ _ H). apply getNumberOneRemote_date.
Qed.

(** The calls of [getYearlyNumberOnes]. *)
Lemma start_all_getNumberOne month day (ys : list Z) w :
  let run := start_all (fun y => getNumberOne axios_get (VNum (Int y)) month day) ys w in
  numberOnesData run.2 = numberOnesData w
  ∧ file run.2 = file w
  ∧ length run.1 = length ys
  ∧ (store_inv (numberOnesData w) →
     Forall2 (fun y c => ∀ e, c = Normal e →
                Entry.date e = cache_key (VNum (Int y)) month day) ys run.1).
Proof.
  revert w. induction ys as [|y ys IH]; intros w; simpl.
  - split_and!; first [done | by constructor].
  - pose proof (getNumberOne_frame (VNum (Int y)) month day w) as [Hd Hf].
    pose proof (getNumberOne_date (VNum (Int y)) month day w) as Hdate.
    destruct (getNumberOne axios_get (VNum (Int y)) month day w) as [c w1]. simpl in *.
    specialize (IH w1).
    destruct (start_all _ ys w1) as [cs w2]. simpl in *.
    destruct IH as (IHd & IHf & IHl & IHi).
    split_and!; [congruence|congruence|by f_equal|].
    intros Hinv. constructor.
    + intros e ->. by apply Hdate.
    + apply IHi. unfold store_inv. by rewrite Hd.
Qed.

Lemma fetch_date_world d w :
  (fetch_date axios_get d w).2 = log_request (date_url d) w.
Proof. apply getNumberOneRemote_world. Qed.

Lemma fetch_date_date d w e :
  (fetch_date axios_get d w).1 = Normal e → Entry.date e = date_key d.
Proof. apply getNumberOneRemote_date. Qed.

(** The fetches of [cacheNumberOnes]: one request for each date, in the
    order of the dates, and nothing else changes. *)
Lemma start_all_fetch_date (ds : list DateArgs) w :
  let run := start_all (fetch_date axios_get) ds w in
  run.2 = mkWorld (numberOnesData w) (file w) (requests w ++ (date_url <$> ds))
  ∧ Forall2 (fun d c => ∀ e, c = Normal e → Entry.date e = date_key d) ds run.1.
Proof.
  revert w. induction ds as [|d ds IH]; intros w; simpl.
  - rewrite app_nil_r. by destruct w.
  - pose proof (fetch_date_world d w) as Hw.
    pose proof (fetch_date_date d w) as Hdate.
    destruct (fetch_date axios_get d w) as [c w1]. simpl in *.
    specialize (IH w1).
    destruct (start_all _ ds w1) as [cs w2]. simpl in *.
    destruct IH as [-> IHf]. subst w1. simpl. split.
    + by rewrite <-app_assoc.
    + constructor; [|done]. intros e ->. by apply Hdate.
Qed.


End ScraperFacts.

(** ** The file written by the backfill *)

Section SaveData.

Lemma saveData_snoc rs r :
  saveData (rs ++ [r]) = <[Entry.date r := r]> (saveData rs).
Proof. unfold saveData. by rewrite foldl_app. Qed.

Lemma saveData_lookup_Some rs k e :
  saveData rs !! k = Some e → e ∈ rs ∧ Entry.date e = k.
Proof.
  induction rs as [|r rs IH] using rev_ind.
  - unfold saveData. simpl. by rewrite lookup_empty.
  - rewrite saveData_snoc, lookup_insert. case_decide as Hk.
    + intros [= <-]. split; [|done]. apply elem_of_app. right. by left.
    + intros [Hin Hd]%IH. split; [|done]. apply elem_of_app. by left.
Qed.

Lemma saveData_lookup_is_Some rs k :
  is_Some (saveData rs !! k) ↔ k ∈ Entry.date <$> rs.
Proof.
  induction rs as [|r rs IH] using rev_ind.
  - unfold saveData. simpl. rewrite lookup_empty. split.
    + by intros [? ?].
    + by intros ?%elem_of_nil.
  - rewrite saveData_snoc, lookup_insert, fmap_app, elem_of_app. simpl.
    case_decide as Hk.
    + split; [|by eexists]. intros _. right. rewrite Hk. by left.
    + rewrite IH. split; [by left|]. intros [H|H]; [done|].
      apply list_elem_of_singleton in H. congruence.
Qed.

Lemma saveData_store_inv rs : store_inv (saveData rs).
Proof. intros k e H. by apply saveData_lookup_Some in H as [_ ?]. Qed.

Lemma NoDup_fmap_elem_inj {A B} (f : A → B) (l : list A) x y :
  NoDup (f <$> l) → x ∈ l → y ∈ l → f x = f y → x = y.
Proof.
  induction l as [|a l IH]; simpl; intros Hnd Hx Hy Hf.
  - by apply elem_of_nil in Hx.
  - apply NoDup_cons in Hnd as [Ha Hnd].
    apply elem_of_cons in Hx as [->|Hx]; apply elem_of_cons in Hy as [->|Hy].
    + done.
    + exfalso. apply Ha. rewrite Hf. by apply list_elem_of_fmap_2.
    + exfalso. apply Ha. rewrite <-Hf. by apply list_elem_of_fmap_2.
    + by apply IH.
Qed.

Lemma saveData_lookup_NoDup rs e :
  NoDup (Entry.date <$> rs) → e ∈ rs → saveData rs !! Entry.date e = Some e.
Proof.
  intros Hnd He.
  destruct (proj2 (saveData_lookup_is_Some rs (Entry.date e))) as [e' He'].
  { by apply list_elem_of_fmap_2. }
  rewrite He'. f_equal.
  apply saveData_lookup_Some in He' as [Hin Hd].
  by eapply NoDup_fmap_elem_inj.
Qed.

End SaveData.

(** ** ChartLookupService *)

Section Lookup.
Variable axios_get : nat → string → Completion Page.
Local Open Scope Z_scope.




(** C7.  [getNumberOne] leaves the snapshot and the file as they are.
    When the key is in the snapshot it returns the cached entry and issues
    no request, so that a second call issues none either; when the key is
    absent it issues exactly one request. *)
Theorem getNumberOne_cache_hit_no_fetch_no_write vy vm vd w :
  numberOnesData (getNumberOne axios_get vy vm vd w).2 = numberOnesData w
  ∧ file (getNumberOne axios_get vy vm vd w).2 = file w
  ∧ (∀ e, numberOnesData w !! cache_key vy vm vd = Some e →
       getNumberOne axios_get vy vm vd w = (Normal e, w)
       ∧ requests (getNumberOne axios_get vy vm vd w).2 = requests w
       ∧ requests (getNumberOne axios_get vy vm vd
                     (getNumberOne axios_get vy vm vd w).2).2
         = requests w)
  ∧ (numberOnesData w !! cache_key vy vm vd = None →
     requests (getNumberOne axios_get vy vm vd w).2
     = requests w
       ++ [chart_url (JS.ToString vy +:+ pad2 vm +:+ pad2 vd)]
     ∧ numberOnesData (getNumberOne axios_get vy vm vd w).2
         !! cache_key vy vm vd = None).
Proof.
  pose proof (getNumberOne_frame axios_get vy vm vd w) as [Hd Hf].
  split_and!; [done|done| |].
  - intros e He. rewrite !(getNumberOne_hit axios_get _ _ _ _ _ He). simpl.
    by rewrite !(getNumberOne_hit axios_get _ _ _ _ _ He).
  - intros Hnone. split; [|by rewrite Hd].
    by rewrite (getNumberOne_miss axios_get _ _ _ _ Hnone), getNumberOneRemote_world.
Qed.


End Lookup.

(** ** BackfillService *)

Section Backfill.
Variable axios_get : nat → string → Completion Page.


(** The run for a given order of settlement is one of the runs. *)
Lemma cacheNumberOnes_sound picks now date w :
  (cacheNumberOnes axios_get picks now date w).1
    = Normal (PromisePool.results
                (PromisePool.run 100 (fetch_date axios_get) picks (dates_since date now) w).1)
  ∧ cacheNumberOnes_returns axios_get now date w
      (PromisePool.results
         (PromisePool.run 100 (fetch_date axios_get) picks (dates_since date now) w).1)
      (cacheNumberOnes axios_get picks now date w).2.
Proof.
  unfold cacheNumberOnes, cacheNumberOnes_returns.
  pose proof (run_process 100 (fetch_date axios_get) picks (dates_since date now) w
                ltac:(lia)) as Hrun.
  destruct (PromisePool.run 100 (fetch_date axios_get) picks (dates_since date now) w)
    as [s wp]. simpl in *.
  split; [done|]. by exists s, wp.
Qed.

(** What a run of the backfill returns and leaves, in terms of the fetches
    made one after the other from the initial world. *)
Lemma cacheNumberOnes_returns_inv now date w results w' :
  cacheNumberOnes_returns axios_get now date w results w' →
  let dates := dates_since date now in
  let cs := (start_all (fetch_date axios_get) dates w).1 in
  results ≡ₚ omap fulfilled cs
  ∧ w' = mkWorld (numberOnesData w) (saveData results)
                 (requests w ++ (date_url <$> dates))
  ∧ Forall2 (fun d c => ∀ e, c = Normal e → Entry.date e = date_key d) dates cs.
Proof.
  intros (s & wp & Hproc & -> & ->) dates cs.
  apply process_results in Hproc as (cs' & Hcs & Hperm).
  pose proof (start_all_fetch_date axios_get dates w) as [Hw Hall].
  fold dates in Hcs. subst cs. rewrite Hcs in *. simpl in *.
  split_and!; [done| |done]. by rewrite Hw.
Qed.

Lemma fulfilled_dates_sublist (ds : list DateArgs) (cs : list (Completion Entry.t)) :
  Forall2 (fun d c => ∀ e, c = Normal e → Entry.date e = date_key d) ds cs →
  Entry.date <$> omap fulfilled cs `sublist_of` date_key <$> ds.
Proof.
  induction 1 as [|d c ds cs Hd _ IH]; [done|].
  rewrite fmap_cons. destruct c as [e|err]; simpl.
  - rewrite (Hd e eq_refl). by apply sublist_skip.
  - by apply sublist_cons.
Qed.

Lemma elem_of_omap_fulfilled (cs : list (Completion Entry.t)) e :
  e ∈ omap fulfilled cs ↔ ∃ i, cs !! i = Some (Normal e).
Proof.
  rewrite list_elem_of_omap. split.
  - intros (c & Hc & Hf). destruct c as [e'|]; [|done]. injection Hf as ->.
    by apply list_elem_of_lookup in Hc.
  - intros [i Hi]. exists (Normal e). split; [|done].
    by eapply list_elem_of_lookup_2.
Qed.

(** C8.  A fetch that fails does not abort the backfill.  Every run
    returns; it returns the entries of the fetches that succeeded (in the
    order in which they settled) and no entry for a date whose fetch
    failed; it issues exactly one request for each date, in the order of
    the dates, so that no date is fetched again; and the file it writes
    holds, under the key of each date, the entry of its fetch when the
    fetch succeeded and nothing when it failed. *)
Theorem backfill_omits_failed_dates now date w :
  let dates := dates_since date now in
  let cs := (start_all (fetch_date axios_get) dates w).1 in
  (∀ picks, ∃ results,
      (cacheNumberOnes axios_get picks now date w).1 = Normal results
      ∧ cacheNumberOnes_returns axios_get now date w results
          (cacheNumberOnes axios_get picks now date w).2)
  ∧ ∀ results w', cacheNumberOnes_returns axios_get now date w results w' →
      results ≡ₚ omap fulfilled cs
      ∧ requests w' = requests w ++ (date_url <$> dates)
      ∧ ∀ i d c, dates !! i = Some d → cs !! i = Some c →
          file w' !! date_key d = fulfilled c
          ∧ (∀ e, c = Normal e → e ∈ results)
          ∧ (∀ err, c = Throw err →
               ∀ e, e ∈ results → Entry.date e ≠ date_key d).
Proof.
  intros dates cs. split.
  { intros picks. eexists. apply cacheNumberOnes_sound. }
  intros results w' Hret.
  apply cacheNumberOnes_returns_inv in Hret as (Hperm & -> & Hall).
  fold dates cs in Hperm, Hall. simpl.
  assert (NoDup (Entry.date <$> results)) as Hnd.
  { rewrite Hperm.
    apply (sublist_NoDup _ _ (dates_since_keys_NoDup date now)).
    by apply fulfilled_dates_sublist. }
  assert (∀ i d e, dates !! i = Some d → cs !! i = Some (Normal e) →
                   Entry.date e = date_key d) as Hkey.
  { intros i d e Hd Hc. by eapply (Forall2_lookup_lr _ _ _ _ _ _ Hall Hd Hc). }
  assert (∀ i d err e, dates !! i = Some d → cs !! i = Some (Throw err) →
                       e ∈ results → Entry.date e ≠ date_key d) as Hfail.
  { intros i d err e Hd Hc He Heq.
    rewrite Hperm in He. apply elem_of_omap_fulfilled in He as [j Hj].
    destruct (Forall2_lookup_r _ _ _ _ _ Hall Hj) as (d' & Hd' & Hde).
    specialize (Hde e eq_refl).
    assert (i = j) as ->.
    { eapply NoDup_lookup; [apply (dates_since_keys_NoDup date now)| |].
      - fold dates. by rewrite list_lookup_fmap, Hd.
      - fold dates. rewrite list_lookup_fmap, Hd'. simpl. congruence. }
    congruence. }
  split_and!; [done|done|].
  intros i d c Hd Hc. destruct c as [e|err]; simpl.
  - assert (e ∈ results) as He.
    { rewrite Hperm. apply elem_of_omap_fulfilled. by exists i. }
    split_and!; [|by intros ? [= <-]|done].
    rewrite <-(Hkey i d e Hd Hc). by apply saveData_lookup_NoDup.
  - split_and!; [|done|].
    + apply eq_None_not_Some. intros Hsome.
      apply saveData_lookup_is_Some, list_elem_of_fmap in Hsome
        as (e & Heq & He).
      by eapply Hfail.
    + intros err' _ e He. by eapply Hfail.
Qed.

(** C1, as the code has it.  The file a backfill writes is built from an
    empty object and the results of this run only: it holds exactly the
    entries fetched by the run, each under its [date], whatever the file
    held before; the snapshot in memory is left as it was. *)
Theorem backfill_writes_only_new_entries now date w results w' :
  cacheNumberOnes_returns axios_get now date w results w' →
  file w' = saveData results
  ∧ (∀ k, is_Some (file w' !! k) ↔ k ∈ Entry.date <$> results)
  ∧ (∀ k e, file w' !! k = Some e → e ∈ results ∧ Entry.date e = k)
  ∧ (∀ e, e ∈ results → file w' !! Entry.date e = Some e)
  ∧ numberOnesData w' = numberOnesData w.
Proof.
  intros Hret.
  pose proof (cacheNumberOnes_returns_inv _ _ _ _ _ Hret) as (Hperm & -> & Hall).
  simpl. split_and!; [done| | | |done].
  - intros k. apply saveData_lookup_is_Some.
  - intros k e. apply saveData_lookup_Some.
  - intros e He. apply saveData_lookup_NoDup; [|done].
    rewrite Hperm.
    apply (sublist_NoDup _ _ (dates_since_keys_NoDup date now)).
    by apply fulfilled_dates_sublist.
Qed.


End Backfill.

(** ** The store invariant *)

Section StoreInvariant.
Variable axios_get : nat → string → Completion Page.

Lemma getYearlyNumberOnes_frame now vy vm vd w :
  numberOnesData (getYearlyNumberOnes axios_get now vy vm vd w).2 = numberOnesData w
  ∧ file (getYearlyNumberOnes axios_get now vy vm vd w).2 = file w.
Proof.
  unfold getYearlyNumberOnes.
  match goal with
  | |- context [start_all ?f ?l w] =>
      pose proof (start_all_getNumberOne axios_get
                    (VNum (JS.parseInt vm)) (VNum (JS.parseInt vd)) l w)
        as (Hd & Hf & _);
      destruct (start_all f l w) as [cs w']
  end.
  by simpl in *.
Qed.

(** C9.  The file a backfill writes satisfies the store invariant:
    whatever it holds under a key [k] is an entry whose [date] is [k].  The
    lookups do not write the file (nor the snapshot), so the invariant
    holds after each of them when it held before. *)
Theorem store_invariant_after_every_operation :
  (∀ now date w results w',
      cacheNumberOnes_returns axios_get now date w results w' →
      store_inv (file w'))
  ∧ (∀ vy vm vd w,
      store_inv (file w) → store_inv (numberOnesData w) →
      store_inv (file (getNumberOne axios_get vy vm vd w).2)
      ∧ store_inv (numberOnesData (getNumberOne axios_get vy vm vd w).2))
  ∧ (∀ now vy vm vd w,
      store_inv (file w) → store_inv (numberOnesData w) →
      store_inv (file (getYearlyNumberOnes axios_get now vy vm vd w).2)
      ∧ store_inv (numberOnesData (getYearlyNumberOnes axios_get now vy vm vd w).2)).
Proof.
  split_and!.
  - intros now date w results w' (s & wp & _ & -> & ->). simpl.
    apply saveData_store_inv.
  - intros vy vm vd w Hf Hd.
    destruct (getNumberOne_frame axios_get vy vm vd w) as [-> ->]. done.
  - intros now vy vm vd w Hf Hd.
    destruct (getYearlyNumberOnes_frame now vy vm vd w) as [-> ->]. done.
Qed.

End StoreInvariant.

(** ** The dates of a backfill, evaluated *)

(** C2.  The month of the start date is read as a zero-based month number
    and the month of each fetch is written as one.  A backfill from
    ["20201230"] run on 1 February 2021 fetches three dates, identified as
    [20210030], [20210031] and [20210101]; a backfill from ["20200801"] run
    on 3 August 2020 fetches nothing; and so does a backfill whose start
    date is written ["2020-08-01"]. *)
Theorem backfill_month_is_zero_based :
  (Date.YearFromTime (noon 18659), Date.MonthFromTime (noon 18659) + 1,
   Date.DateFromTime (noon 18659))%Z = (2021, 2, 1)%Z
  ∧ dates_since "20201230" (noon 18659)
    = [mkDateArgs (Int 2021) "00" "30"; mkDateArgs (Int 2021) "00" "31";
       mkDateArgs (Int 2021) "01" "01"]
  ∧ requests (cacheNumberOnes flaky_net [] (noon 18659) "20201230" sample_world).2
    = [chart_url "20210030"; chart_url "20210031"; chart_url "20210101"]
  ∧ (Date.YearFromTime (noon 18477), Date.MonthFromTime (noon 18477) + 1,
     Date.DateFromTime (noon 18477))%Z = (2020, 8, 3)%Z
  ∧ dates_since "20200801" (noon 18477) = []
  ∧ dates_since "2020-08-01" (noon 18477) = [].
Proof. split_and!; by vm_compute. Qed.

(** Whatever the start date and the day of the run: the month of a fetch
    is one of ["00"] to ["11"], never ["12"]. *)
Lemma dates_since_month_zero_based date now d :
  d ∈ dates_since date now →
  ∃ m, (0 <= m <= 11)%Z ∧ da_month d = two_digits m.
Proof.
  rewrite dates_since_visited.
  destruct (Date.construct _ _ _) as [tv|]; [|by intros ?%elem_of_nil].
  intros (t & -> & _)%list_elem_of_fmap.
  exists (Date.MonthFromTime t). split; [apply MonthFromTime_range|].
  apply args_of_time_month.
Qed.

(** ** The specification against the code: examples *)

(** C4, as stated, fails: "Smarch" is not a month name, and [parseDate]
    returns a date string with month number 0 instead of failing. *)
Lemma unknown_month_is_not_an_error :
  ("Smarch" ∉ months)
  ∧ parseDate (VStr "1 Smarch 2020") = Normal "2020-0-1"
  ∧ ¬ ∃ e, parseDate (VStr "1 Smarch 2020") = Throw e.
Proof.
  split_and!.
  - apply (bool_decide_unpack _). by vm_compute.
  - reflexivity.
  - by intros [e He].
Qed.

Lemma parseDate_unknown_month_witness :
  parseDate (VStr (JS.join " " ["1"; "Smarch"; "2020"]))
  = Normal (JS.trim "2020" +:+ "-0-" +:+ JS.trim "1").
Proof.
  apply (parseDate_unknown_month "1" "Smarch" "2020"); try reflexivity.
  apply (bool_decide_unpack _). by vm_compute.
Defined.




Lemma getNumberOne_cache_hit_no_fetch_no_write_witness :
  requests (getNumberOne flaky_net (VNum (Int 1999)) (VStr "1") (VStr "01")
              sample_world).2 = requests sample_world.
Proof.
  destruct (getNumberOne_cache_hit_no_fetch_no_write flaky_net
              (VNum (Int 1999)) (VStr "1") (VStr "01") sample_world)
    as (_ & _ & Hhit & _).
  apply (Hhit old_entry). reflexivity.
Defined.


(** A lookup that misses the snapshot: one request, and the entry is dated
    with the padded composite. *)
Example getNumberOne_remote :
  ∃ e, getNumberOne steady_net (VStr "2020") (VNum (Int 8)) (VStr "1") sample_world
       = (Normal e,
          mkWorld (numberOnesData sample_world) (file sample_world)
                  [chart_url "20200801"])
       ∧ Entry.date e = "2020-08-01"
       ∧ Entry.artist e = "Lady Gaga & Ariana Grande".
Proof. eexists. split_and!; by vm_compute. Qed.

(** The yearly lookup on 10 April 2024 (day 19823, month number 3).  A
    birthday in March is looked up to 2024, a birthday in June to 2023; a
    birthday on 9 April, already passed, is looked up to 2023 as well,
    since 4 is greater than 3. *)
Example yearly_lookup_april_2024 :
  (Date.YearFromTime (noon 19823), Date.MonthFromTime (noon 19823),
   Date.DateFromTime (noon 19823)) = (2024, 3, 10)%Z
  ∧ requests (getYearlyNumberOnes steady_net (noon 19823)
                (VStr "2022") (VStr "03") (VStr "15") empty_world).2
    = [chart_url "20220315"; chart_url "20230315"; chart_url "20240315"]
  ∧ requests (getYearlyNumberOnes steady_net (noon 19823)
                (VStr "2022") (VStr "06") (VStr "15") empty_world).2
    = [chart_url "20220615"; chart_url "20230615"]
  ∧ requests (getYearlyNumberOnes steady_net (noon 19823)
                (VStr "2022") (VStr "04") (VStr "09") empty_world).2
    = [chart_url "20220409"; chart_url "20230409"]
  ∧ fmap (M := list) Entry.date <$>
      fulfilled (getYearlyNumberOnes steady_net (noon 19823)
                   (VStr "2022") (VStr "06") (VStr "15") empty_world).1
    = Some ["2022-06-15"; "2023-06-15"].
Proof. split_and!; by vm_compute. Qed.

(** The backfill of the specification's example: three days, the fetch of
    the second day fails. *)
Example three_day_backfill :
  let run := cacheNumberOnes flaky_net [] (noon 18506) "20200730" sample_world in
  dates_since "20200730" (noon 18506)
  = [mkDateArgs (Int 2020) "07" "30"; mkDateArgs (Int 2020) "07" "31";
     mkDateArgs (Int 2020) "08" "01"]
  ∧ (∃ e1 e3, run.1 = Normal [e1; e3]
       ∧ Entry.date e1 = "2020-07-30" ∧ Entry.date e3 = "2020-08-01"
       ∧ Entry.track e1 = "Rain On Me"
       ∧ Entry.actualChartStartDate e1 = "2020-7-31"
       ∧ Entry.actualChartEndDate e1 = "2020-8-6"
       ∧ file run.2 = <["2020-08-01" := e3]> (<["2020-07-30" := e1]> ∅))
  ∧ requests run.2
    = [chart_url "20200730"; chart_url "20200731"; chart_url "20200801"].
Proof.
  split_and!; [by vm_compute| |by vm_compute].
  do 2 eexists. split_and!; by vm_compute.
Qed.

(** C1, as stated, fails: the key ["1999-01-01"] is in the file before the
    three-day backfill, is not fetched by it, and is not in the file
    after it. *)
Lemma backfill_drops_preexisting_keys :
  let run := cacheNumberOnes flaky_net [] (noon 18506) "20200730" sample_world in
  ∃ results,
    run.1 = Normal results
    ∧ cacheNumberOnes_returns flaky_net (noon 18506) "20200730" sample_world
        results run.2
    ∧ file sample_world !! "1999-01-01" = Some old_entry
    ∧ ("1999-01-01" ∉ Entry.date <$> results)
    ∧ file run.2 !! "1999-01-01" = None.
Proof.
  eexists. split_and!.
  - apply cacheNumberOnes_sound.
  - apply cacheNumberOnes_sound.
  - reflexivity.
  - apply (bool_decide_unpack _). by vm_compute.
  - by vm_compute.
Qed.

Lemma backfill_writes_only_new_entries_witness :
  file (cacheNumberOnes flaky_net [] (noon 18506) "20200730" sample_world).2
  = saveData (PromisePool.results
                (PromisePool.run 100 (fetch_date flaky_net) []
                   (dates_since "20200730" (noon 18506)) sample_world).1).
Proof.
  exact (proj1 (backfill_writes_only_new_entries flaky_net (noon 18506)
                  "20200730" sample_world _ _
                  (proj2 (cacheNumberOnes_sound flaky_net [] (noon 18506)
                            "20200730" sample_world)))).
Defined.

Lemma backfill_omits_failed_dates_witness :
  requests (cacheNumberOnes flaky_net [] (noon 18506) "20200730" sample_world).2
  = requests sample_world
    ++ (date_url <$> dates_since "20200730" (noon 18506)).
Proof.
  exact (proj1 (proj2 (proj2 (backfill_omits_failed_dates flaky_net (noon 18506)
                                "20200730" sample_world) _ _
                         (proj2 (cacheNumberOnes_sound flaky_net [] (noon 18506)
                                   "20200730" sample_world))))).
Defined.

Lemma store_invariant_after_every_operation_witness :
  store_inv
    (file (cacheNumberOnes flaky_net [] (noon 18506) "20200730" sample_world).2).
Proof.
  exact (proj1 (store_invariant_after_every_operation flaky_net)
           (noon 18506) "20200730" sample_world _ _
           (proj2 (cacheNumberOnes_sound flaky_net [] (noon 18506)
                     "20200730" sample_world))).
Defined.


(** ** More on the text functions *)

Section TextExtras.

Lemma upper_char_idem c : JS.upper_char (JS.upper_char c) = JS.upper_char c.
Proof. by destruct c as [[] [] [] [] [] [] [] []]. Qed.

Lemma lower_char_idem c : JS.lower_char (JS.lower_char c) = JS.lower_char c.
Proof. by destruct c as [[] [] [] [] [] [] [] []]. Qed.

Lemma upper_char_space c : Ascii.eqb (JS.upper_char c) " " = Ascii.eqb c " ".
Proof. by destruct c as [[] [] [] [] [] [] [] []]. Qed.

Lemma lower_char_space c : Ascii.eqb (JS.lower_char c) " " = Ascii.eqb c " ".
Proof. by destruct c as [[] [] [] [] [] [] [] []]. Qed.

Lemma map_string_compose f g s :
  JS.map_string f (JS.map_string g s) = JS.map_string (fun c => f (g c)) s.
Proof. induction s as [|c s IH]; simpl; [done|]. by rewrite IH. Qed.

Lemma map_string_ext f g s :
  (∀ c, f c = g c) → JS.map_string f s = JS.map_string g s.
Proof. intros H. induction s as [|c s IH]; simpl; [done|]. by rewrite H, IH. Qed.

Lemma contains_map_string f sep s :
  (∀ c, Ascii.eqb (f c) sep = Ascii.eqb c sep) →
  contains sep (JS.map_string f s) = contains sep s.
Proof.
  intros Hf. induction s as [|c s IH]; simpl; [done|]. by rewrite Hf, IH.
Qed.

(** The pieces [split] gives hold no separator. *)
Lemma split_pieces sep s :
  Forall (fun w => contains sep w = false) (JS.split sep s).
Proof.
  induction s as [|c s IH]; simpl; [by repeat constructor|].
  destruct (Ascii.eqb c sep) eqn:E; [by constructor|].
  destruct (JS.split sep s) as [|w ws]; [by repeat constructor; simpl; rewrite E|].
  apply Forall_cons in IH as [Hw Hws]. constructor; [|done].
  simpl. by rewrite E, Hw.
Qed.

Lemma capitalize_idem w : capitalize (capitalize w) = capitalize w.
Proof.
  destruct w as [|c r]; [done|]. simpl.
  rewrite upper_char_idem. f_equal. unfold JS.toLowerCase.
  rewrite map_string_compose. apply map_string_ext, lower_char_idem.
Qed.

Lemma capitalize_word w : is_word w → is_word (capitalize w).
Proof.
  intros [Hne Hsp]. destruct w as [|c r]; [done|]. split; [done|].
  simpl in *. apply orb_false_elim in Hsp as [Hc Hr].
  rewrite upper_char_space, Hc. unfold JS.toLowerCase.
  by rewrite contains_map_string by apply lower_char_space.
Qed.

(** On a string without an empty token [toSentenceCase] is the sentence
    case of each token. *)
Lemma toSentenceCase_tokens s :
  Forall (fun w => w ≠ EmptyString) (JS.split " " s) →
  toSentenceCase (VStr s) = JS.join " " (capitalize <$> JS.split " " s).
Proof.
  intros H. unfold toSentenceCase, toSentenceCase_try.
  by rewrite map_words_words.
Qed.

Lemma tokens_cases (l : list string) :
  EmptyString ∈ l ∨ Forall (fun w => w ≠ EmptyString) l.
Proof.
  induction l as [|w l [IH|IH]].
  - right. constructor.
  - left. by right.
  - destruct w as [|c r]; [left; by left|]. right. by constructor.
Qed.

Lemma toSentenceCase_twice v :
  toSentenceCase (VStr (toSentenceCase v)) = toSentenceCase v.
Proof.
  destruct v as [| | n | s]; try reflexivity.
  destruct (tokens_cases (JS.split " " s)) as [Hempty|Hwords].
  - assert (toSentenceCase (VStr s) = EmptyString) as ->; [|done].
    unfold toSentenceCase, toSentenceCase_try.
    by rewrite (map_words_empty_token _ Hempty).
  - rewrite (toSentenceCase_tokens s Hwords).
    assert (Forall is_word (JS.split " " s)) as Hw.
    { pose proof (split_pieces " " s) as Hp.
      apply Forall_forall. intros w Hin. split.
      - by eapply (Forall_forall (fun w => w ≠ EmptyString)).
      - by eapply (Forall_forall (fun w => contains " " w = false)). }
    assert (Forall is_word (capitalize <$> JS.split " " s)) as Hcw.
    { apply Forall_fmap. eapply Forall_impl; [exact Hw|]. apply capitalize_word. }
    rewrite toSentenceCase_tokens.
    + rewrite split_join.
      * rewrite <-list_fmap_compose. f_equal. apply list_fmap_ext.
        intros _ w _. apply capitalize_idem.
      * intros Hnil. apply fmap_nil_inv in Hnil. by apply split_nonempty in Hnil.
      * eapply Forall_impl; [exact Hcw|]. by intros w [_ ?].
    + rewrite split_join.
      * eapply Forall_impl; [exact Hcw|]. by intros w [? _].
      * intros Hnil. apply fmap_nil_inv in Hnil. by apply split_nonempty in Hnil.
      * eapply Forall_impl; [exact Hcw|]. by intros w [_ ?].
Qed.

(** X2.  On a string of ASCII characters [toSentenceCase] is idempotent:
    applied to its own result it changes nothing, also when the result is
    the empty string of the caught exception. *)
Theorem toSentenceCase_idempotent s :
  ascii_only s = true →
  toSentenceCase (VStr (toSentenceCase (VStr s))) = toSentenceCase (VStr s).
Proof. intros _. apply toSentenceCase_twice. Qed.

End TextExtras.

Lemma toSentenceCase_idempotent_witness :
  toSentenceCase (VStr (toSentenceCase (VStr "HEY JUDE")))
  = toSentenceCase (VStr "HEY JUDE").
Proof. exact (toSentenceCase_idempotent "HEY JUDE" eq_refl). Defined.

(** ** More on [parseDate] *)

Section ParseDateExtras.

(** X1.  [parseDate] numbers the months from 1: with the month name at
    index [i] of the table, the month of the result is [i + 1]. *)
Theorem parseDate_month_number (i : nat) name d y :
  months !! i = Some name →
  contains " " d = false → contains " " y = false →
  parseDate (VStr (JS.join " " [d; name; y]))
  = Normal (JS.trim y +:+ "-" +:+ pretty (Z.of_nat i + 1)%Z +:+ "-" +:+ JS.trim d).
Proof.
  intros Hi Hd Hy. unfold months in Hi.
  do 12 (destruct i as [|i];
         [injection Hi as <-; by rewrite parseDate_three_tokens|]).
  done.
Qed.

End ParseDateExtras.

Lemma parseDate_month_number_witness :
  parseDate (VStr (JS.join " " ["6"; "August"; "2020"]))
  = Normal (JS.trim "2020" +:+ "-" +:+ pretty (Z.of_nat 7 + 1)%Z
            +:+ "-" +:+ JS.trim "6").
Proof.
  exact (parseDate_month_number 7 "August" "6" "2020" eq_refl eq_refl eq_refl).
Defined.

(** ** More on the built-ins and the promises *)

Section GenericExtras.

Lemma split_two sep s :
  contains sep s = true → ∃ a b rest, JS.split sep s = a :: b :: rest.
Proof.
  induction s as [|c s IH]; simpl; [done|].
  destruct (Ascii.eqb c sep); simpl.
  - intros _. destruct (JS.split sep s) as [|b rest] eqn:E.
    + by apply split_nonempty in E.
    + by exists EmptyString, b, rest.
  - intros (a & b & rest & ->)%IH. by exists (String c a), b, rest.
Qed.

Lemma start_all_cons {W A B} (f : A → Async W B) x l w :
  start_all f (x :: l) w
  = ((f x w).1 :: (start_all f l (f x w).2).1, (start_all f l (f x w).2).2).
Proof.
  simpl. destruct (f x w) as [c w1]. simpl.
  by destruct (start_all f l w1).
Qed.

End GenericExtras.

(** ** More on the remote fetch *)

Section RemoteExtras.
Variable axios_get : nat → string → Completion Page.

(** X3.  [getNumberOneRemote] issues exactly one request, whatever comes
    of it.  It is rejected with the error of the request when the request
    fails, and with a [TypeError] when the text of the chart week holds no
    hyphen; in every other case it is fulfilled. *)
Theorem getNumberOneRemote_outcome year month day w :
  safe_value year = true → safe_value month = true → safe_value day = true →
  let url :=
    chart_url (JS.ToString year +:+ JS.ToString month +:+ JS.ToString day) in
  let answer := axios_get (length (requests w)) url in
  (getNumberOneRemote axios_get year month day w).2 = log_request url w
  ∧ (∀ err, answer = Throw err →
       (getNumberOneRemote axios_get year month day w).1 = Throw err)
  ∧ (∀ p, answer = Normal p →
       contains "-" (JS.trim (article_date p)) = false →
       (getNumberOneRemote axios_get year month day w).1 = Throw TypeError)
  ∧ (∀ p, answer = Normal p →
       contains "-" (JS.trim (article_date p)) = true →
       ∃ e, (getNumberOneRemote axios_get year month day w).1 = Normal e).
Proof.
  intros _ _ _ url answer. split; [apply getNumberOneRemote_world|].
  unfold getNumberOneRemote, abind, axios_get_async. fold url answer.
  split_and!.
  - by intros err ->.
  - intros p -> Hno. simpl. unfold read_page.
    by rewrite (split_no_sep _ _ Hno).
  - intros p -> Hyes. simpl. unfold read_page.
    destruct (split_two _ _ Hyes) as (a & b & rest & ->). simpl. by eexists.
Qed.

End RemoteExtras.

(** ** More on the yearly lookup *)

Section YearlyExtras.
Variable axios_get : nat → string → Completion Page.
Local Open Scope Z_scope.

(** The calls of [getYearlyNumberOnes], for a year that [parseInt] reads. *)
Lemma getYearlyNumberOnes_lookups now vy vm vd y0 w :
  JS.parseInt vy = Int y0 →
  let month := VNum (JS.parseInt vm) in
  let day := VNum (JS.parseInt vd) in
  let years := seqZ y0 (last_chart_year now (JS.parseInt vm) - y0 + 1) in
  let lookups :=
    start_all (fun y => getNumberOne axios_get (VNum (Int y)) month day) years w in
  getYearlyNumberOnes axios_get now vy vm vd w
  = (promise_all lookups.1, lookups.2).
Proof.
  intros Hy month day years lookups.
  unfold getYearlyNumberOnes. rewrite Hy.
  fold (last_chart_year now (JS.parseInt vm)).
  rewrite years_between_seqZ. fold years month day lookups.
  by destruct lookups.
Qed.

Lemma yearly_requests_snapshot w w' month day ys :
  numberOnesData w' = numberOnesData w →
  yearly_requests w' month day ys = yearly_requests w month day ys.
Proof. intros H. unfold yearly_requests. by rewrite H. Qed.

Lemma yearly_requests_cons w month day y ys :
  yearly_requests w month day (y :: ys)
  = match numberOnesData w !! cache_key (VNum (Int y)) month day with
    | None => [chart_url (pretty y +:+ pad2 month +:+ pad2 day)]
    | Some _ => []
    end ++ yearly_requests w month day ys.
Proof.
  unfold yearly_requests. rewrite filter_cons.
  destruct (numberOnesData w !! cache_key (VNum (Int y)) month day).
  - by rewrite decide_False.
  - by rewrite decide_True.
Qed.

Lemma start_all_getNumberOne_requests month day (ys : list Z) w :
  requests (start_all (fun y => getNumberOne axios_get (VNum (Int y)) month day)
                      ys w).2
  = requests w ++ yearly_requests w month day ys.
Proof.
  revert w. induction ys as [|y ys IH]; intros w.
  - simpl. by rewrite app_nil_r.
  - pose proof (getNumberOne_frame axios_get (VNum (Int y)) month day w) as [Hd _].
    rewrite start_all_cons. cbn [snd]. rewrite IH.
    rewrite (yearly_requests_snapshot _ _ _ _ _ Hd), yearly_requests_cons.
    destruct (numberOnesData w !! cache_key (VNum (Int y)) month day)
      as [e|] eqn:Hk.
    + by rewrite (getNumberOne_hit axios_get _ _ _ _ _ Hk).
    + rewrite (getNumberOne_miss axios_get _ _ _ _ Hk), getNumberOneRemote_world.
      simpl. by rewrite <-app_assoc.
Qed.

(** X4.  [getYearlyNumberOnes] issues one request for each year of the
    range whose key is not in the snapshot, in ascending order of the year,
    and no other. *)
Theorem getYearlyNumberOnes_requests now vy vm vd y0 w :
  safe_query vy vm vd = true →
  JS.parseInt vy = Int y0 →
  requests (getYearlyNumberOnes axios_get now vy vm vd w).2
  = requests w
    ++ yearly_requests w (VNum (JS.parseInt vm)) (VNum (JS.parseInt vd))
         (seqZ y0 (last_chart_year now (JS.parseInt vm) - y0 + 1)).
Proof.
  intros _ Hy. rewrite (getYearlyNumberOnes_lookups now vy vm vd y0 w Hy).
  simpl. apply start_all_getNumberOne_requests.
Qed.

End YearlyExtras.

(** ** More on the dates of the backfill *)

Section BackfillDates.
Local Open Scope Z_scope.

Lemma construct_midnight a b c tv :
  Date.construct a b c = Some tv → tv = Date.Day tv * Date.msPerDay.
Proof.
  unfold Date.construct.
  destruct (JS.StringToNumber a) as [|y]; [done|].
  destruct (JS.StringToNumber b) as [|m]; [done|].
  destruct (JS.StringToNumber c) as [|d]; [done|].
  intros [= <-]. unfold Date.MakeDate, Date.Day, Date.msPerDay.
  Z.div_mod_to_equations. lia.
Qed.

Lemma visited_lookup_lt tv now (i : nat) :
  Z.of_nat i < (now - tv) / Date.msPerDay + 1 →
  visited tv now !! i = Some (tv + Z.of_nat i * Date.msPerDay).
Proof.
  intros Hi. unfold visited. rewrite list_lookup_fmap, lookup_seqZ_lt by done.
  simpl. by rewrite Z.add_0_l.
Qed.

(** X5.  From a start date that [Date] reads as a day not after today,
    the backfill fetches one date for each day from that day to today, in
    ascending order: the date at index [i] is made of the getters of the
    start advanced by [i] days. *)
Theorem backfill_dates_consecutive now date tv :
  Date.construct (JS.slice 0 4 date) (JS.slice 4 6 date) (JS.slice 6 8 date)
  = Some tv →
  tv <= now →
  length (dates_since date now)
  = Z.to_nat (Date.Day now - Date.Day tv + 1)
  ∧ ∀ i : nat, Z.of_nat i <= Date.Day now - Date.Day tv →
      dates_since date now !! i
      = Some (args_of_time (tv + Z.of_nat i * Date.msPerDay)).
Proof.
  intros Hc Hle. rewrite dates_since_visited, Hc.
  pose proof (construct_midnight _ _ _ _ Hc) as Hmid.
  assert ((now - tv) / Date.msPerDay = Date.Day now - Date.Day tv) as Hcount.
  { revert Hmid. unfold Date.Day, Date.msPerDay.
    generalize (tv / 86400000). intros k ->. Z.div_mod_to_equations. lia. }
  split.
  - unfold visited. rewrite !length_fmap, length_seqZ. by rewrite Hcount.
  - intros i Hi. rewrite list_lookup_fmap, visited_lookup_lt by lia. done.
Qed.


End BackfillDates.

(** ** More on the backfill *)

Section BackfillExtras.
Variable axios_get : nat → string → Completion Page.
Local Open Scope Z_scope.



End BackfillExtras.

(** ** The home page *)

Section HomeExtras.
Variable axios_get : nat → string → Completion Page.
Local Open Scope Z_scope.

(** X7.  The handler of the home page never fails on a route parameter,
    a string or [undefined]: it always renders, with the parameter as
    [date], and it writes neither the file nor the snapshot.  Without a
    parameter it renders no result and leaves the server as it is: nothing
    is looked up and nothing is logged. *)
Theorem home_always_renders stamp log_ok now date sv :
  date = VUndefined ∨ (∃ s, date = VStr s) →
  (∃ view,
     (home axios_get stamp log_ok now date sv).1 = Normal view
     ∧ view_date view = date
     ∧ (hasResults view = true ↔ view_data view ≠ []))
  ∧ numberOnesData (core (home axios_get stamp log_ok now date sv).2)
    = numberOnesData (core sv)
  ∧ file (core (home axios_get stamp log_ok now date sv).2) = file (core sv)
  ∧ (truthy date = false →
     home axios_get stamp log_ok now date sv
     = (Normal (mkHomeView false date []), sv)).
Proof.
  intros Hdate. unfold home.
  destruct (truthy date) eqn:Ht.
  - destruct Hdate as [-> | [s ->]]; [done|].
    match goal with
    | |- context [getYearlyNumberOnes axios_get now ?y ?m ?d (core sv)] =>
        pose proof (getYearlyNumberOnes_frame axios_get now y m d (core sv))
          as [Hd Hf];
        destruct (getYearlyNumberOnes axios_get now y m d (core sv)) as [c w']
    end.
    simpl in *. split_and!; [|done|done|done].
    eexists. split_and!; [done|done|]. simpl.
    destruct (match c with Normal d => d | Throw _ => [] end); simpl; split; done.
  - split_and!; [|done|done|done].
    eexists. split_and!; [done|done|]. simpl. split; done.
Qed.

End HomeExtras.

(** ** Examples for the properties above *)

Lemma getNumberOneRemote_outcome_witness :
  ∃ e, (getNumberOneRemote steady_net (VStr "2020") (VStr "08") (VStr "01")
          empty_world).1 = Normal e.
Proof.
  exact (proj2 (proj2 (proj2 (getNumberOneRemote_outcome steady_net
           (VStr "2020") (VStr "08") (VStr "01") empty_world
           eq_refl eq_refl eq_refl)))
           sample_page eq_refl eq_refl).
Defined.

Lemma getYearlyNumberOnes_requests_witness :
  requests (getYearlyNumberOnes steady_net (noon 19823) (VStr "2022") (VStr "06")
                                (VStr "15") empty_world).2
  = requests empty_world
    ++ yearly_requests empty_world (VNum (JS.parseInt (VStr "06")))
         (VNum (JS.parseInt (VStr "15")))
         (seqZ 2022 (last_chart_year (noon 19823) (JS.parseInt (VStr "06"))
                     - 2022 + 1)).
Proof.
  exact (getYearlyNumberOnes_requests steady_net (noon 19823) (VStr "2022")
           (VStr "06") (VStr "15") 2022 empty_world eq_refl eq_refl).
Defined.

Lemma backfill_dates_consecutive_witness :
  length (dates_since "20200730" (noon 18506))
  = Z.to_nat (Date.Day (noon 18506) - Date.Day (18504 * Date.msPerDay) + 1)
  ∧ dates_since "20200730" (noon 18506) !! 2%nat
    = Some (args_of_time (18504 * Date.msPerDay + Z.of_nat 2 * Date.msPerDay)).
Proof.
  assert (18504 * Date.msPerDay <= noon 18506)%Z as Hle by (by vm_compute).
  pose proof (backfill_dates_consecutive (noon 18506) "20200730"
                (18504 * Date.msPerDay) eq_refl Hle) as [Hlen Hat].
  split; [exact Hlen|]. apply (Hat 2%nat). by vm_compute.
Defined.


Lemma home_always_renders_witness :
  home steady_net "1/1/2024 10:00:00" true (noon 19823) VUndefined sample_server
  = (Normal (mkHomeView false VUndefined []), sample_server).
Proof.
  exact (proj2 (proj2 (proj2 (home_always_renders steady_net "1/1/2024 10:00:00"
                                true (noon 19823) VUndefined sample_server
                                (or_introl eq_refl))))
           eq_refl).
Defined.
